(** * Social-Post-Helper: SVG export, browser storage, autosave, recent list

    A shallow embedding of the parts of the repository that its specification
    makes checkable statements about:

    - [client/src/types/customLayout.ts] (the [CustomLayout] type, and the
      SVG exporter that follows it there: [escapeXml], [generateMetadata],
      the five [render*] layouts, [renderCustomLayout],
      [renderLayoutContent], [slideToSvg] and [generateSlideFilename]);
    - [client/src/lib/storage/localStorage.ts] ([LocalStorageProvider]);
    - [client/src/hooks/useAutoSave.ts] (the debounced autosave hook);
    - [electron/main/ipc.ts] (the [recent:add] handler).

    Conventions.

    - A JavaScript string is a [string]; one [ascii] stands for one UTF-16
      code unit, so inputs range over the 8-bit alphabet.  Every operation
      the source performs on strings (character classes, [split], [replace])
      works code unit by code unit.
    - [undefined] (an optional field that is absent) is [None].
    - A JavaScript number that holds a pixel quantity is a rational ([Q]):
      the arithmetic of the layouts is exact here, while the source rounds
      to IEEE doubles.  Counting numbers ([slide_number], sizes in bytes)
      are [N].
    - A function that may throw, and a promise that may reject, returns a
      [result]. *)

From Stdlib Require Import String Ascii List NArith ZArith QArith Qminmax Lia Lqa Bool.
From stdpp Require Import base gmap strings list sorting.

Local Open Scope string_scope.
Local Open Scope stdpp_scope.

#[local] Arguments String.append !_ _ / : simpl nomatch.
#[local] Arguments Ascii.eqb : simpl never.

(** ** JavaScript string primitives used by the sources *)

Module JS.

(** The double quote character, and a helper to write the literal chunks of
    a template literal: inside [tpl "..."] a caret stands for a double
    quote (no template of the sources contains a caret). *)
Definition dquote : ascii := Ascii false true false false false true false false.
Definition caret : ascii := "^"%char.
Definition dq : string := String dquote "".

Fixpoint tpl (s : string) : string :=
  match s with
  | "" => ""
  | String c r => String (if Ascii.eqb c caret then dquote else c) (tpl r)
  end.

(** Truthiness of a string value: [undefined] and [''] are falsy. *)
Definition truthy (o : option string) : bool :=
  match o with
  | Some (String _ _) => true
  | _ => false
  end.

(** [a || b] on an optional string and a string default. *)
Definition orElse (o : option string) (d : string) : string :=
  match o with
  | Some (String c r) => String c r
  | _ => d
  end.

(** [a || b] where both sides may be [undefined]. *)
Definition orOpt (a b : option string) : option string :=
  if truthy a then a else b.

Fixpoint dropS (n : nat) (s : string) : string :=
  match n, s with
  | O, _ => s
  | S k, String _ r => dropS k r
  | S _, "" => ""
  end.

(** [s.startsWith(p)] *)
Fixpoint startsWith (p s : string) : bool :=
  match p, s with
  | "", _ => true
  | String a p', String b s' => Ascii.eqb a b && startsWith p' s'
  | String _ _, "" => false
  end.

(** [s.includes(p)] *)
Fixpoint includes (p s : string) : bool :=
  startsWith p s ||
  match s with
  | "" => false
  | String _ r => includes p r
  end.

(** [GetSubstitution] of ECMA-262 for a match without capture groups: in
    the replacement text [$$] yields a dollar sign, [$&] the matched text,
    [$`] the text before the match and [$'] the text after it; any other
    character, a dollar sign before anything else included, stands for
    itself. *)
Fixpoint getSubstitution (matched before after repl : string) : string :=
  match repl with
  | "" => ""
  | String c r =>
      match r with
      | String d r' =>
          if Ascii.eqb c "$" then
            if Ascii.eqb d "$" then String "$" (getSubstitution matched before after r')
            else if Ascii.eqb d "&" then matched +:+ getSubstitution matched before after r'
            else if Ascii.eqb d "`" then before +:+ getSubstitution matched before after r'
            else if Ascii.eqb d "'" then after +:+ getSubstitution matched before after r'
            else String c (getSubstitution matched before after r)
          else String c (getSubstitution matched before after r)
      | "" => String c ""
      end
  end.

(** [s.replace(/pat/g, repl)] for a regular expression that matches the
    literal text [pat] (non-empty): leftmost matches, not overlapping, each
    replaced by the expansion of [repl].  [before] is the text already
    scanned and [skip] counts the characters of a match still to pass. *)
Fixpoint replaceAll_from (pat repl before : string) (skip : nat) (s : string) : string :=
  match s with
  | "" => ""
  | String c r =>
      match skip with
      | S k => replaceAll_from pat repl (before +:+ String c "") k r
      | O =>
          if startsWith pat s
          then getSubstitution pat before (dropS (String.length pat) s) repl
                 +:+ replaceAll_from pat repl (before +:+ String c "")
                       (String.length pat - 1) r
          else String c (replaceAll_from pat repl (before +:+ String c "") 0 r)
      end
  end.

Definition replaceAll (pat repl s : string) : string :=
  replaceAll_from pat repl "" 0 s.

(** [s.replace(/[class]/g, repl)] for a character class and a replacement
    text without dollar signs: every character of the class becomes [repl]. *)
Fixpoint replaceClass (inClass : ascii -> bool) (repl : string) (s : string) : string :=
  match s with
  | "" => ""
  | String c r =>
      (if inClass c then repl else String c "") +:+ replaceClass inClass repl r
  end.

(** [s.replace(p, '')] with a string pattern: only the first occurrence is
    removed. *)
Fixpoint removeFirst (p s : string) : string :=
  match s with
  | "" => ""
  | String c r =>
      if startsWith p s then dropS (String.length p) s
      else String c (removeFirst p r)
  end.

(** [s.split(sep)] for a one-character separator; the result is never
    empty: [''.split(sep)] is [['']]. *)
Fixpoint split (sep : ascii) (s : string) : list string :=
  match s with
  | "" => [""]
  | String c r =>
      if Ascii.eqb c sep then "" :: split sep r
      else match split sep r with
           | x :: xs => String c x :: xs
           | [] => [String c ""]
           end
  end.

(** [arr.pop()] as a value: the last element, [undefined] on an empty
    array. *)
Definition pop (l : list string) : option string := last l.

Definition isUpper (c : ascii) : bool :=
  let n := nat_of_ascii c in
  ((65 <=? n) && (n <=? 90))%nat
  || ((192 <=? n) && (n <=? 222) && negb (n =? 215))%nat.

(** [s.toLowerCase()] on the 8-bit alphabet: the letters A-Z and the
    capital letters of Latin-1 move 32 places up. *)
Fixpoint toLowerCase (s : string) : string :=
  match s with
  | "" => ""
  | String c r =>
      String (if isUpper c then ascii_of_nat (nat_of_ascii c + 32) else c)
             (toLowerCase r)
  end.

Fixpoint repeatChar (c : ascii) (n : nat) : string :=
  match n with
  | O => ""
  | S k => String c (repeatChar c k)
  end.

(** [s.padStart(n, c)] for a one-character filler. *)
Definition padStart (n : nat) (c : ascii) (s : string) : string :=
  repeatChar c (n - String.length s) +:+ s.

Definition digitChar (d : N) : ascii := ascii_of_N (48 + d).

Fixpoint decimal_fuel (fuel : nat) (n : N) (acc : string) : string :=
  match fuel with
  | O => acc
  | S k =>
      let acc' := String (digitChar (n mod 10)) acc in
      if (n <? 10)%N then acc' else decimal_fuel k (n / 10) acc'
  end.

(** [String(n)] for an integer [n] in the range where a number prints as
    its decimal digits (below 10^21). *)
Definition String_of_N (n : N) : string :=
  decimal_fuel (S (N.to_nat (N.log2 n))) n "".

(** [arr.join(sep)] *)
Fixpoint join (sep : string) (l : list string) : string :=
  match l with
  | [] => ""
  | [x] => x
  | x :: xs => x +:+ sep +:+ join sep xs
  end.

Fixpoint concatS (l : list string) : string :=
  match l with
  | [] => ""
  | x :: xs => x +:+ concatS xs
  end.

End JS.

(** ** The SVG exporter *)

Module SvgExport.
Import JS.

(** Modelled from the spec: the type [SlideData] of [types/carousel], which
    is not among the sources; its fields are those of section 3 of the
    spec and those the exporter reads.  The four text slots are optional. *)
Record SlideData := mkSlide {
  title : option string;
  subtitle : option string;
  body_text : option string;
  quote : option string;
  background_color : string;
  font_color : string;
  accent_color : string;
  layout_type : string;
  slide_number : N;
  carousel_id : string
}.

(** Modelled from the spec: the types [FontSettings] and [CustomFont] of
    [types/font], which is not among the sources; their fields are those of
    section 3 of the spec, of [DEFAULT_FONT_SETTINGS_VALUE] and of the font
    that [uploadFont] builds. *)
Record FontSettings := mkFontSettings {
  headingFont : string;
  bodyFont : string;
  accentFont : string;
  googleFonts : list string
}.

Record CustomFont := mkCustomFont {
  font_id : string;
  font_name : string;
  family : string;
  format : string;
  base64Data : string;
  uploadedAt : string
}.

Record CustomLayout := mkCustomLayout {
  layout_id : string;
  layout_name : string;
  description : string;
  htmlTemplate : string;
  cssTemplate : string;
  createdAt : string;
  modifiedAt : option string;
  isFromFigma : option bool;
  originalSvg : option string;
  detectedFonts : option (list string);
  detectedColors : option (list (string * string))
}.

Record ExportPreset := mkPreset {
  preset_id : string;
  preset_name : string;
  width : Q;
  height : Q
}.


(** The two things the exporter takes from outside this file: how the
    engine prints a number inside a template literal, and
    [generateFontFaceCSS] of the font storage module. *)
Class Host := {
  numToString : Q -> string;
  generateFontFaceCSS : CustomFont -> string
}.

(** A template literal is a sequence of pieces: the literal text of the
    template, interpolated strings, interpolated numbers. *)
Inductive piece :=
| Text (s : string)
| Val (s : string)
| Num (q : Q).

Definition T (s : string) : piece := Text (tpl s).

Definition show `{Host} (p : piece) : string :=
  match p with
  | Text s => s
  | Val s => s
  | Num q => numToString q
  end.

Definition flatten `{Host} (l : list piece) : string := concatS (map show l).

(** Escape text for SVG *)
Definition escapeXml (text : string) : string :=
  replaceAll "'" "&apos;"
    (replaceAll dq "&quot;"
      (replaceAll ">" "&gt;"
        (replaceAll "<" "&lt;"
          (replaceAll "&" "&amp;" text)))).


Definition has (l : list string) (x : string) : bool :=
  existsb (String.eqb x) l.


(** Generate SVG metadata for re-import *)
Definition metadataVariables : list (string * string * option string) :=
  [ ("title", "title-text", None);
    ("body_text", "body-text", None);
    ("subtitle", "subtitle-text", None);
    ("quote", "quote-text", None);
    ("background_color", "background", Some "fill");
    ("font_color", "title-text", Some "fill");
    ("accent_color", "accent-element", Some "fill") ].

Definition metadataVar (v : string * string * option string) : string :=
  let '(name, element, attr) := v in
  tpl "<goround:var name=^" +:+ name +:+ tpl "^ element=^" +:+ element +:+ dq
  +:+ (if truthy attr then tpl " attr=^" +:+ orElse attr "" +:+ dq else "")
  +:+ "/>".

Definition generateMetadata (slide : SlideData) : string :=
  tpl "
  <metadata>
    <goround:slide xmlns:goround=^https://goround.dev/schema^>
      <goround:layout>" +:+ escapeXml (layout_type slide) +:+ "</goround:layout>
      <goround:carousel_id>" +:+ escapeXml (carousel_id slide) +:+ "</goround:carousel_id>
      <goround:slide_number>" +:+ String_of_N (slide_number slide) +:+ "</goround:slide_number>
      <goround:variables>
        " +:+ join "
        " (map metadataVar metadataVariables) +:+ "
      </goround:variables>
    </goround:slide>
  </metadata>".

Section Layouts.
Context (slide : SlideData) (width height : Q) (fonts : FontSettings).
Local Open Scope Q_scope.

Definition background : list piece :=
  [ T "
    <rect id=^background^ width=^"; Num width; T "^ height=^"; Num height;
    T "^ fill=^"; Val (background_color slide); T "^/>
" ].

(** Render dictionary entry layout as SVG *)
Definition renderDictionaryEntry_tpl : list piece :=
  let padding := Qmin width height * 0.06 in
  let titleSize := Qmin width height * 0.08 in
  let bodySize := Qmin width height * 0.035 in
  let subtitleSize := Qmin width height * 0.025 in
  background ++ [ T "
    <g id=^content^>
      " ] ++
  (if truthy (title slide) then
     [ T "
        <text id=^title-text^
              x=^"; Num padding; T "^ y=^"; Num (padding + titleSize); T "^
              font-family=^"; Val (headingFont fonts); T ", sans-serif^
              font-size=^"; Num titleSize; T "^
              font-weight=^bold^
              fill=^"; Val (font_color slide); T "^>
          "; Val (escapeXml (orElse (title slide) "")); T "
        </text>
      " ]
   else [ Text "" ]) ++
  [ T "

      " ] ++
  (if truthy (subtitle slide) then
     [ T "
        <text id=^subtitle-text^
              x=^"; Num padding; T "^ y=^"; Num (padding + titleSize + subtitleSize + 10); T "^
              font-family=^"; Val (bodyFont fonts); T ", sans-serif^
              font-size=^"; Num subtitleSize; T "^
              font-style=^italic^
              fill=^"; Val (accent_color slide); T "^>
          "; Val (escapeXml (orElse (subtitle slide) "")); T "
        </text>
      " ]
   else [ Text "" ]) ++
  [ T "

      <line id=^accent-element^
            x1=^"; Num padding; T "^ y1=^"; Num (padding + titleSize + subtitleSize + 30); T "^
            x2=^"; Num (width - padding); T "^ y2=^"; Num (padding + titleSize + subtitleSize + 30); T "^
            stroke=^"; Val (accent_color slide); T "^
            stroke-width=^2^/>

      " ] ++
  (if truthy (body_text slide) then
     [ T "
        <foreignObject x=^"; Num padding; T "^ y=^"; Num (padding + titleSize + subtitleSize + 50); T "^
                       width=^"; Num (width - padding * 2); T "^ height=^";
       Num (height - padding * 2 - titleSize - subtitleSize - 60); T "^>
          <div xmlns=^http://www.w3.org/1999/xhtml^
               style=^font-family: "; Val (bodyFont fonts); T ", sans-serif;
                      font-size: "; Num bodySize; T "px;
                      color: "; Val (font_color slide); T ";
                      line-height: 1.6;^>
            "; Val (escapeXml (orElse (body_text slide) "")); T "
          </div>
        </foreignObject>
      " ]
   else [ Text "" ]) ++
  [ T "
    </g>" ].

(** Render bold callout layout as SVG *)
Definition boldCalloutLine (textSize lineHeight startY : Q) (i : nat) (line : string)
  : list piece :=
  [ T "
        <text id=^body-text-"; Val (String_of_N (N.of_nat i)); T "^
              x=^"; Num (width / 2); T "^ y=^"; Num (startY + inject_Z (Z.of_nat i) * lineHeight); T "^
              font-family=^"; Val (headingFont fonts); T ", sans-serif^
              font-size=^"; Num textSize; T "^
              font-weight=^bold^
              text-anchor=^middle^
              fill=^"; Val (font_color slide); T "^>
          "; Val (escapeXml line); T "
        </text>
      " ].

Definition boldCalloutLines : list string :=
  split "010" (orElse (orOpt (body_text slide) (title slide)) "").

Definition renderBoldCallout_tpl : list piece :=
  let padding := Qmin width height * 0.1 in
  let textSize := Qmin width height * 0.06 in
  let lines := boldCalloutLines in
  let lineHeight := textSize * 1.4 in
  let totalHeight := inject_Z (Z.of_nat (length lines)) * lineHeight in
  let startY := (height - totalHeight) / 2 + textSize in
  background ++ [ T "
    <g id=^content^>
      " ] ++
  concat (imap (boldCalloutLine textSize lineHeight startY) lines) ++
  [ T "
    </g>" ].

(** Render header/body layout as SVG *)
Definition renderHeaderBody_tpl : list piece :=
  let padding := Qmin width height * 0.08 in
  let titleSize := Qmin width height * 0.1 in
  let bodySize := Qmin width height * 0.04 in
  background ++ [ T "
    <g id=^content^>
      " ] ++
  (if truthy (title slide) then
     [ T "
        <text id=^title-text^
              x=^"; Num (width / 2); T "^ y=^"; Num (height * 0.35); T "^
              font-family=^"; Val (headingFont fonts); T ", sans-serif^
              font-size=^"; Num titleSize; T "^
              font-weight=^bold^
              text-anchor=^middle^
              fill=^"; Val (font_color slide); T "^>
          "; Val (escapeXml (orElse (title slide) "")); T "
        </text>
      " ]
   else [ Text "" ]) ++
  [ T "

      <rect id=^accent-element^
            x=^"; Num (width / 2 - 50); T "^ y=^"; Num (height * 0.42); T "^
            width=^100^ height=^4^
            fill=^"; Val (accent_color slide); T "^/>

      " ] ++
  (if truthy (body_text slide) then
     [ T "
        <foreignObject x=^"; Num padding; T "^ y=^"; Num (height * 0.48); T "^
                       width=^"; Num (width - padding * 2); T "^ height=^"; Num (height * 0.4); T "^>
          <div xmlns=^http://www.w3.org/1999/xhtml^
               style=^font-family: "; Val (bodyFont fonts); T ", sans-serif;
                      font-size: "; Num bodySize; T "px;
                      color: "; Val (font_color slide); T ";
                      text-align: center;
                      line-height: 1.6;^>
            "; Val (escapeXml (orElse (body_text slide) "")); T "
          </div>
        </foreignObject>
      " ]
   else [ Text "" ]) ++
  [ T "
    </g>" ].

(** Render quote highlight layout as SVG.  The dash before the attribution
    is outside the 8-bit alphabet and is kept as the bytes of its UTF-8
    form. *)
Definition renderQuoteHighlight_tpl : list piece :=
  let padding := Qmin width height * 0.1 in
  let quoteSize := Qmin width height * 0.05 in
  let quoteMarkSize := Qmin width height * 0.15 in
  background ++ [ T "
    <g id=^content^>
      <text x=^"; Num padding; T "^ y=^"; Num (height * 0.25); T "^
            font-family=^Georgia, serif^
            font-size=^"; Num quoteMarkSize; T "^
            fill=^"; Val (accent_color slide); T "^
            opacity=^0.3^>
        ^
      </text>

      " ] ++
  (if truthy (orOpt (quote slide) (body_text slide)) then
     [ T "
        <foreignObject x=^"; Num (padding + 20); T "^ y=^"; Num (height * 0.3); T "^
                       width=^"; Num (width - padding * 2 - 40); T "^ height=^"; Num (height * 0.4); T "^>
          <div xmlns=^http://www.w3.org/1999/xhtml^
               style=^font-family: "; Val (accentFont fonts); T ", serif;
                      font-size: "; Num quoteSize; T "px;
                      font-style: italic;
                      color: "; Val (font_color slide); T ";
                      line-height: 1.5;^>
            "; Val (escapeXml (orElse (orOpt (quote slide) (body_text slide)) "")); T "
          </div>
        </foreignObject>
      " ]
   else [ Text "" ]) ++
  [ T "

      " ] ++
  (if truthy (title slide) then
     [ T "
        <text id=^attribution^
              x=^"; Num (width - padding); T "^ y=^"; Num (height * 0.8); T "^
              font-family=^"; Val (bodyFont fonts); T ", sans-serif^
              font-size=^"; Num (quoteSize * 0.6); T "^
              text-anchor=^end^
              fill=^"; Val (accent_color slide); T "^>
          — "; Val (escapeXml (orElse (title slide) "")); T "
        </text>
      " ]
   else [ Text "" ]) ++
  [ T "
    </g>" ].

(** Render minimalist focus layout as SVG *)
Definition renderMinimalistFocus_tpl : list piece :=
  let padding := Qmin width height * 0.1 in
  let titleSize := Qmin width height * 0.06 in
  let bodySize := Qmin width height * 0.035 in
  background ++ [ T "
    <g id=^content^>
      <rect id=^accent-element^
            x=^"; Num padding; T "^ y=^"; Num (height * 0.4); T "^
            width=^4^ height=^"; Num (height * 0.2); T "^
            fill=^"; Val (accent_color slide); T "^/>

      " ] ++
  (if truthy (title slide) then
     [ T "
        <text id=^title-text^
              x=^"; Num (padding + 20); T "^ y=^"; Num (height * 0.45); T "^
              font-family=^"; Val (headingFont fonts); T ", sans-serif^
              font-size=^"; Num titleSize; T "^
              font-weight=^bold^
              fill=^"; Val (font_color slide); T "^>
          "; Val (escapeXml (orElse (title slide) "")); T "
        </text>
      " ]
   else [ Text "" ]) ++
  [ T "

      " ] ++
  (if truthy (body_text slide) then
     [ T "
        <foreignObject x=^"; Num (padding + 20); T "^ y=^"; Num (height * 0.5); T "^
                       width=^"; Num (width - padding * 2 - 20); T "^ height=^"; Num (height * 0.3); T "^>
          <div xmlns=^http://www.w3.org/1999/xhtml^
               style=^font-family: "; Val (bodyFont fonts); T ", sans-serif;
                      font-size: "; Num bodySize; T "px;
                      color: "; Val (font_color slide); T ";
                      line-height: 1.6;^>
            "; Val (escapeXml (orElse (body_text slide) "")); T "
          </div>
        </foreignObject>
      " ]
   else [ Text "" ]) ++
  [ T "
    </g>" ].

(** Render custom layout as SVG: the placeholders of the two templates are
    substituted one after the other, each with a global [replace]. *)
Definition customHtml (layout : CustomLayout) : string :=
  let html := htmlTemplate layout in
  let html := replaceAll "{{title}}" (escapeXml (orElse (title slide) "")) html in
  let html := replaceAll "{{body_text}}" (escapeXml (orElse (body_text slide) "")) html in
  let html := replaceAll "{{subtitle}}" (escapeXml (orElse (subtitle slide) "")) html in
  let html := replaceAll "{{quote}}" (escapeXml (orElse (quote slide) "")) html in
  let html := replaceAll "{{background_color}}" (background_color slide) html in
  let html := replaceAll "{{font_color}}" (font_color slide) html in
  let html := replaceAll "{{accent_color}}" (accent_color slide) html in
  let html := replaceAll "{{heading_font}}" (headingFont fonts) html in
  let html := replaceAll "{{body_font}}" (bodyFont fonts) html in
  let html := replaceAll "{{accent_font}}" (accentFont fonts) html in
  html.

Definition customCss (layout : CustomLayout) : string :=
  let css := cssTemplate layout in
  let css := replaceAll "{{background_color}}" (background_color slide) css in
  let css := replaceAll "{{font_color}}" (font_color slide) css in
  let css := replaceAll "{{accent_color}}" (accent_color slide) css in
  let css := replaceAll "{{heading_font}}" (headingFont fonts) css in
  let css := replaceAll "{{body_font}}" (bodyFont fonts) css in
  let css := replaceAll "{{accent_font}}" (accentFont fonts) css in
  css.

Definition renderCustomLayout_tpl (layout : CustomLayout) : list piece :=
  let html := customHtml layout in
  let css := customCss layout in
  background ++ [ T "
    <foreignObject x=^0^ y=^0^ width=^"; Num width; T "^ height=^"; Num height; T "^>
      <div xmlns=^http://www.w3.org/1999/xhtml^>
        <style>"; Val css; T "</style>
        "; Val html; T "
      </div>
    </foreignObject>" ].

(** Render a slide layout as SVG content *)
Definition findLayout (layoutId : string) (layouts : list CustomLayout)
  : option CustomLayout :=
  List.find (fun l => String.eqb (layout_id l) layoutId) layouts.

Definition renderLayoutContent_tpl (layouts : list CustomLayout) : list piece :=
  let lt := layout_type slide in
  if String.eqb lt "dictionary_entry" then renderDictionaryEntry_tpl
  else if String.eqb lt "bold_callout" then renderBoldCallout_tpl
  else if String.eqb lt "header_body" then renderHeaderBody_tpl
  else if String.eqb lt "quote_highlight" then renderQuoteHighlight_tpl
  else if String.eqb lt "minimalist_focus" then renderMinimalistFocus_tpl
  else
    match
      (if startsWith "custom-" lt
       then findLayout (removeFirst "custom-" lt) layouts
       else None)
    with
    | Some layout => renderCustomLayout_tpl layout
    | None => renderHeaderBody_tpl
    end.

End Layouts.

Section Rendered.
Context `{Host}.

Definition renderDictionaryEntry s w h f := flatten (renderDictionaryEntry_tpl s w h f).
Definition renderBoldCallout s w h f := flatten (renderBoldCallout_tpl s w h f).
Definition renderHeaderBody s w h f := flatten (renderHeaderBody_tpl s w h f).
Definition renderQuoteHighlight s w h f := flatten (renderQuoteHighlight_tpl s w h f).
Definition renderMinimalistFocus s w h f := flatten (renderMinimalistFocus_tpl s w h f).
Definition renderCustomLayout s w h f l := flatten (renderCustomLayout_tpl s w h f l).
Definition renderLayoutContent s w h f ls := flatten (renderLayoutContent_tpl s w h f ls).



End Rendered.

(** Generate filename for exported slide *)
Inductive Format := svg | png.

Definition formatName (f : Format) : string :=
  match f with svg => "svg" | png => "png" end.

Definition isLetterDigit (c : ascii) : bool :=
  let n := nat_of_ascii c in
  ((97 <=? n) && (n <=? 122) || (65 <=? n) && (n <=? 90) || (48 <=? n) && (n <=? 57))%nat.

(** The class [[^a-zA-Z0-9-_]]. *)
Definition unsafeNameChar (c : ascii) : bool :=
  negb (isLetterDigit c || Ascii.eqb c "-" || Ascii.eqb c "_").

Definition generateSlideFilename (slide : SlideData) (carouselName : string)
    (preset : ExportPreset) (format : Format) : string :=
  let paddedNumber := padStart 3 "0" (String_of_N (slide_number slide)) in
  let safeName := replaceClass unsafeNameChar "-" carouselName in
  safeName +:+ "-slide-" +:+ paddedNumber +:+ "." +:+ formatName format.

End SvgExport.

(** ** The browser-storage provider *)

Module LocalStorage.
Import JS SvgExport.

(** Modelled from the spec: the types [Project] and [Carousel] of
    [types/project] and [types/carousel], which are not among the sources;
    their fields are those of section 3 of the spec. *)
Record Carousel := mkCarousel {
  carousel_name : string;
  slides : list SlideData
}.

Record Project := mkProject {
  project_id : string;
  project_name : string;
  carousels : list Carousel;
  project_createdAt : string;
  project_modifiedAt : string;
  project_description : option string
}.

Definition set_modifiedAt (now : string) (p : Project) : Project :=
  mkProject (project_id p) (project_name p) (carousels p)
            (project_createdAt p) now (project_description p).

(** What a [throw] carries: an [Error] object with its message, or some
    other value ([error instanceof Error] tells them apart). *)
Inductive exn :=
| Error (message : string)
| Thrown (value : string).

Definition instanceOfError (e : exn) : bool :=
  match e with Error _ => true | Thrown _ => false end.

Inductive result (A : Type) :=
| Ok (a : A)
| Throw (e : exn).
Arguments Ok {A} a.
Arguments Throw {A} e.

(** The capacity-constrained backend: the key/value items of
    [localStorage], whether the page may read it at all, and the quota
    figures of the store. *)
Record Backend := mkBackend {
  items : gmap string string;
  blocked : bool;
  total : N;
  used : N
}.

(** The provider's methods run against the backend and may throw: a state
    and error monad. *)
Definition M (A : Type) : Type := Backend -> Backend * result A.

Definition ret {A} (a : A) : M A := fun b => (b, Ok a).
Definition throw {A} (e : exn) : M A := fun b => (b, Throw e).
Definition bind {A B} (c : M A) (k : A -> M B) : M B :=
  fun b => match c b with
           | (b', Ok a) => k a b'
           | (b', Throw e) => (b', Throw e)
           end.
Definition tryCatch {A} (body : M A) (handler : exn -> M A) : M A :=
  fun b => match body b with
           | (b', Ok a) => (b', Ok a)
           | (b', Throw e) => handler e b'
           end.

Notation "'let*' x ':=' c 'in' k" := (bind c (fun x => k))
  (at level 10, x name, c at level 100, k at level 200).

(** [JSON.parse] (which throws on text that is not JSON: [None]) and
    [JSON.stringify], at the type a collection is stored with. *)
Class JSON (A : Type) := {
  JSON_parse : string -> option A;
  JSON_stringify : A -> string
}.

(** The helpers of [storageUtils] whose behaviour the provider does not
    depend on: the write that may fail, and the printing of a size. *)
Class StorageUtils := {
  safeSetItem : string -> string -> M unit;
  formatBytes : N -> string
}.

Definition PROJECTS : string := "carousel_projects".
Definition CUSTOM_LAYOUTS : string := "custom_layouts".
Definition CUSTOM_FONTS : string := "custom_fonts".
Definition FONT_SETTINGS : string := "font_settings".

Definition DEFAULT_FONT_SETTINGS_VALUE : FontSettings :=
  mkFontSettings "AT-Kyrios Standard" "AT-Kyrios Text" "Merriweather" [].

(** [localStorage.getItem(key)]: [null] for a missing key; a page that is
    denied access to the store gets an exception instead. *)
Definition getItem (key : string) : M (option string) :=
  fun b => if blocked b
           then (b, Throw (Error "SecurityError: access to localStorage is denied"))
           else (b, Ok (items b !! key)).

Definition parseOrThrow {A} `{JSON A} (text : string) : M A :=
  match JSON_parse text with
  | Some v => ret v
  | None => throw (Error "SyntaxError: JSON.parse")
  end.

(** The body shared by the four readers:
    [try { stored = getItem(key); return stored ? JSON.parse(stored) : dflt }
     catch { return dflt }]. *)
Definition readOr {A} `{JSON A} (key : string) (dflt : A) : M A :=
  tryCatch
    (let* stored := getItem key in
     if truthy stored then parseOrThrow (orElse stored "") else ret dflt)
    (fun _ => ret dflt).

Section Provider.
Context `{JSON (list Project)} `{JSON (list CustomLayout)}
        `{JSON (list CustomFont)} `{JSON FontSettings} `{StorageUtils}.

Definition getAllProjects : M (list Project) := readOr PROJECTS [].
Definition getAllCustomLayouts : M (list CustomLayout) := readOr CUSTOM_LAYOUTS [].
Definition getAllCustomFonts : M (list CustomFont) := readOr CUSTOM_FONTS [].

(** Modelled from the spec: [estimateDataSize] of [storageUtils], which is
    not among the sources: the serialized size of the whole collection. *)
Definition estimateDataSize {A} `{JSON A} (data : A) : N :=
  N.of_nat (String.length (JSON_stringify data)).

Record Quota := mkQuota { q_used : N; q_total : N; q_available : N }.

(** Modelled from the spec: [getStorageQuota] of [storageUtils], which is
    not among the sources: the used and total sizes of the backend and the
    available size, quota total minus quota used. *)
Definition getStorageQuota : M Quota :=
  fun b => (b, Ok (mkQuota (used b) (total b) (total b - used b))).

(** Modelled from the spec: [hasEnoughSpace] of [storageUtils], which is
    not among the sources: the size is compared against quota total minus
    quota used, and a size that exceeds it is insufficient. *)
Definition hasEnoughSpace (size : N) : M bool :=
  fun b => (b, Ok (size <=? total b - used b)%N).

(** [arr[index] = x] when [findIndex] found an index, [arr.push(x)]
    otherwise. *)
Definition upsert {A} (same : A -> bool) (x : A) (l : list A) : list A :=
  match list_find (fun y => same y = true) l with
  | Some (index, _) => <[index := x]> l
  | None => l ++ [x]
  end.

Definition projectQuotaMessage (dataSize : N) (quota : Quota) : string :=
  "Cannot save project: localStorage quota would be exceeded.

" +:+ "Project data size: " +:+ formatBytes dataSize +:+ "
" +:+ "Storage used: " +:+ formatBytes (q_used quota) +:+ " / "
  +:+ formatBytes (q_total quota) +:+ "
" +:+ "Available: " +:+ formatBytes (q_available quota) +:+ "

" +:+ "Try removing some old projects or custom fonts to free up space.".

(** [now] is [new Date().toISOString()]. *)
Definition saveProject (project : Project) (now : string) : M unit :=
  let* projects := getAllProjects in
  let project := set_modifiedAt now project in
  let projects :=
    upsert (fun p => String.eqb (project_id p) (project_id project)) project projects in
  let dataSize := estimateDataSize projects in
  let* quota := getStorageQuota in
  let* enough := hasEnoughSpace dataSize in
  if negb enough then throw (Error (projectQuotaMessage dataSize quota))
  else
    tryCatch (safeSetItem PROJECTS (JSON_stringify projects))
             (fun error =>
                if instanceOfError error then throw error
                else throw (Error "Failed to save project")).

Definition fontQuotaMessage (dataSize : N) (quota : Quota) : string :=
  "Cannot save font: localStorage quota would be exceeded.

" +:+ "Font size: " +:+ formatBytes dataSize +:+ "
" +:+ "Storage used: " +:+ formatBytes (q_used quota) +:+ " / "
  +:+ formatBytes (q_total quota) +:+ "
" +:+ "Available: " +:+ formatBytes (q_available quota) +:+ "

" +:+ "Try removing some custom fonts or projects to free up space.".

Definition saveCustomFont (font : CustomFont) : M unit :=
  let* fonts := getAllCustomFonts in
  let fonts := upsert (fun f => String.eqb (font_id f) (font_id font)) font fonts in
  let dataSize := estimateDataSize fonts in
  let* quota := getStorageQuota in
  let* enough := hasEnoughSpace dataSize in
  if negb enough then throw (Error (fontQuotaMessage dataSize quota))
  else
    tryCatch (safeSetItem CUSTOM_FONTS (JSON_stringify fonts))
             (fun _ => throw (Error "Failed to save font. File may be too large.")).

(** The uploaded [File]: its name, its size, and what the [FileReader]
    delivers for it ([None] when reading fails). *)
Record File := mkFile {
  file_name : string;
  file_size : N;
  file_dataURL : option string
}.

(** [file.name.split('.').pop()?.toLowerCase()] *)
Definition fileExtension (name : string) : option string :=
  option_map toLowerCase (pop (split "." name)).

Definition supportedFormats : list string := ["ttf"; "otf"; "woff"; "woff2"].

Definition notSlashDot (c : ascii) : bool :=
  negb (Ascii.eqb c "/" || Ascii.eqb c ".").

Fixpoint allChars (p : ascii -> bool) (s : string) : bool :=
  match s with
  | "" => true
  | String c r => p c && allChars p r
  end.

(** [name.replace(/\.[^/.]+$/, '')]: the match starts at the first dot that
    is followed, up to the end of the name, by one or more characters other
    than a slash and a dot. *)
Fixpoint stripExtension (name : string) : string :=
  match name with
  | "" => ""
  | String c r =>
      if Ascii.eqb c "." && negb (String.eqb r "") && allChars notSlashDot r
      then ""
      else String c (stripExtension r)
  end.

Definition hyphenOrUnderscore (c : ascii) : bool :=
  Ascii.eqb c "-" || Ascii.eqb c "_".

(** [nowMs] is [Date.now()] and [nowIso] is [new Date().toISOString()].
    The warning about a file above one megabyte only writes to the console
    and is left out.  The promise settles from [reader.onload], or from
    [reader.onerror] when the file cannot be read. *)
Definition uploadFont (file : File) (nowMs : N) (nowIso : string) : M CustomFont :=
  match file_dataURL file with
  | None => throw (Error "Failed to read font file")
  | Some base64Data =>
      let extension := fileExtension (file_name file) in
      if negb (truthy extension) || negb (has supportedFormats (orElse extension ""))
      then throw (Error "Unsupported font format. Please use TTF, OTF, WOFF, or WOFF2.")
      else
        let fontName := stripExtension (file_name file) in
        let fontFamily := replaceClass hyphenOrUnderscore " " fontName in
        let font :=
          mkCustomFont ("font-" +:+ String_of_N nowMs) fontName fontFamily
                       (orElse extension "") base64Data nowIso in
        let* _ := saveCustomFont font in
        ret font
  end.

End Provider.
End LocalStorage.

(** ** The autosave hook *)

Module AutoSave.
Import LocalStorage.

Inductive SaveStatus := saved | saving | unsaved | error.

(** The options of the hook ([delay] in milliseconds). *)
Record Options := mkOptions {
  delay : N;
  enabled : bool
}.

(** The state the hook keeps between events: its two state variables, its
    three refs, and, from the surroundings, the clock, the timeouts that
    are pending (identifier and due time; the callback of every timeout the
    hook sets is [save]), the next timeout identifier, and the log of the
    calls made to [storage.saveProject] (time of the call and project). *)
Record State := mkState {
  saveStatus : SaveStatus;
  hasUnsavedChanges : bool;
  timerRef : option positive;
  projectRef : option Project;
  isSavingRef : bool;
  clock : N;
  pending : list (positive * N);
  nextTimer : positive;
  saveCalls : list (N * Project)
}.

Definition clearTimeout (id : positive) (l : list (positive * N)) : list (positive * N) :=
  List.filter (fun t => negb (Pos.eqb (fst t) id)) l.

(** [save()] up to its [await]: nothing happens without a project or while
    a save is in flight; otherwise the flag is raised and the provider is
    called. *)
Definition save (s : State) : State :=
  match projectRef s with
  | None => s
  | Some project =>
      if isSavingRef s then s
      else mkState saving (hasUnsavedChanges s) (timerRef s) (projectRef s) true
                   (clock s) (pending s) (nextTimer s)
                   (saveCalls s ++ [(clock s, project)])
  end.

(** [save()] after its [await]: the promise of the provider is fulfilled
    ([ok]) or rejected; [finally] lowers the flag. *)
Definition saveSettled (ok : bool) (s : State) : State :=
  if ok
  then mkState saved false (timerRef s) (projectRef s) false
               (clock s) (pending s) (nextTimer s) (saveCalls s)
  else mkState error (hasUnsavedChanges s) (timerRef s) (projectRef s) false
               (clock s) (pending s) (nextTimer s) (saveCalls s).

(** [markChanged()] *)
Definition markChanged (o : Options) (s : State) : State :=
  if negb (enabled o) then s
  else
    let cleared :=
      match timerRef s with
      | Some id => clearTimeout id (pending s)
      | None => pending s
      end in
    let id := nextTimer s in
    mkState unsaved true (Some id) (projectRef s) (isSavingRef s)
            (clock s) (cleared ++ [(id, (clock s + delay o)%N)]) (Pos.succ id)
            (saveCalls s).

(** [saveNow()] up to the [await] inside [save]. *)
Definition saveNow (s : State) : State :=
  let s' :=
    match timerRef s with
    | Some id =>
        mkState (saveStatus s) (hasUnsavedChanges s) None (projectRef s)
                (isSavingRef s) (clock s) (clearTimeout id (pending s))
                (nextTimer s) (saveCalls s)
    | None => s
    end in
  save s'.

(** The timeout [id], due at [due], fires: the clock stands at [due] and
    the callback calls [save]. *)
Definition fire (id : positive) (due : N) (s : State) : State :=
  save (mkState (saveStatus s) (hasUnsavedChanges s) (timerRef s) (projectRef s)
                (isSavingRef s) (N.max (clock s) due) (clearTimeout id (pending s))
                (nextTimer s) (saveCalls s)).

(** The earliest pending timeout that is due by [limit], earlier identifier
    first among equals. *)
Fixpoint earliest (limit : N) (l : list (positive * N)) : option (positive * N) :=
  match l with
  | [] => None
  | (id, due) :: r =>
      match earliest limit r with
      | Some (id', due') =>
          if (due <=? due')%N && (due <=? limit)%N then Some (id, due)
          else Some (id', due')
      | None => if (due <=? limit)%N then Some (id, due) else None
      end
  end.

(** Time passes until [limit]: the timeouts that fall due fire in the order
    of their due times.  [fuel] bounds the number of timeouts fired; the
    number of pending timeouts is enough. *)
Fixpoint runTimers (fuel : nat) (limit : N) (s : State) : State :=
  match fuel with
  | O => s
  | S k =>
      match earliest limit (pending s) with
      | Some (id, due) => runTimers k limit (fire id due s)
      | None => s
      end
  end.

Definition advance (dt : N) (s : State) : State :=
  let limit := (clock s + dt)%N in
  let s' := runTimers (length (pending s)) limit s in
  mkState (saveStatus s') (hasUnsavedChanges s') (timerRef s') (projectRef s')
          (isSavingRef s') limit (pending s') (nextTimer s') (saveCalls s').

Inductive event :=
| MarkChanged
| SaveNow
| Settled (ok : bool)
| Advance (dt : N).

Definition step (o : Options) (s : State) (e : event) : State :=
  match e with
  | MarkChanged => markChanged o s
  | SaveNow => saveNow s
  | Settled ok => saveSettled ok s
  | Advance dt => advance dt s
  end.

Definition run (o : Options) (s : State) (es : list event) : State :=
  fold_left (step o) es s.

(** The hook right after it is mounted with project [p] at time [t]. *)
Definition mounted (p : option Project) (t : N) : State :=
  mkState saved false None p false t [] 1%positive [].

End AutoSave.

(** ** The recent-projects list of the desktop shell *)

Module Recent.

Record RecentEntry := mkRecent {
  path : string;
  name : string;
  timestamp : N
}.

(** The three statements of the handler that compute the new list:
    [filter], [unshift], [slice(0, 10)]. *)
Definition addRecent (projectPath projectName : string) (now : N)
    (recent : list RecentEntry) : list RecentEntry :=
  let recent := filter (fun r => path r <> projectPath) recent in
  let recent := mkRecent projectPath projectName now :: recent in
  take 10 recent.

(** The file [recent-projects.json]: absent, or its text; a write to it may
    be refused. *)
Record Disk := mkDisk {
  recentFile : option string;
  readOnly : bool
}.

Inductive Response :=
| success
| failure (error : string).

Section Handler.
Context `{LocalStorage.JSON (list RecentEntry)}.
Import LocalStorage.

(** The [recent:add] handler; [now] is [Date.now()]. *)
Definition recentAdd (projectPath projectName : string) (now : N) (d : Disk)
  : Disk * Response :=
  let parsed :=
    match recentFile d with
    | Some content => JSON_parse content
    | None => Some []
    end in
  match parsed with
  | None => (d, failure "SyntaxError: JSON.parse")
  | Some recent =>
      let recent := addRecent projectPath projectName now recent in
      if readOnly d then (d, failure "Error: EACCES")
      else (mkDisk (Some (JSON_stringify recent)) (readOnly d), success)
  end.

End Handler.
End Recent.

(** ** The rest of the exporter: colours *)

Module Colour.
Import JS.

(** The class [[a-f\d]] under the flag [i]: a decimal digit or one of the
    letters a to f in either case, with its value as a hexadecimal digit. *)
Definition hexDigit (c : ascii) : option N :=
  let n := N_of_ascii c in
  if ((48 <=? n) && (n <=? 57))%N then Some (n - 48)%N
  else if ((97 <=? n) && (n <=? 102))%N then Some (n - 87)%N
  else if ((65 <=? n) && (n <=? 70))%N then Some (n - 55)%N
  else None.

Record RGB := mkRGB { red : N; green : N; blue : N }.

(** [parseInt(pair, 16)] on a pair of hexadecimal digits. *)
Definition parsePair (hi lo : ascii) : option N :=
  match hexDigit hi, hexDigit lo with
  | Some h, Some l => Some (16 * h + l)%N
  | _, _ => None
  end.

(** Convert hex color to RGB: the expression
    [/^#?([a-f\d]{2})([a-f\d]{2})([a-f\d]{2})$/i] matches an optional hash
    sign followed by exactly six hexadecimal digits, up to the end of the
    text. *)
Definition hexToRgb (hex : string) : option RGB :=
  let digits :=
    match hex with
    | String c rest => if Ascii.eqb c "#" then rest else hex
    | "" => hex
    end in
  match digits with
  | String r1 (String r2 (String g1 (String g2 (String b1 (String b2 ""))))) =>
      match parsePair r1 r2, parsePair g1 g2, parsePair b1 b2 with
      | Some r, Some g, Some b => Some (mkRGB r g b)
      | _, _, _ => None
      end
  | _ => None
  end.



End Colour.

(** ** The rest of the browser-storage provider *)

Module Provider.
Import JS SvgExport LocalStorage.

(** [localStorage.setItem], which the delete methods call directly: it may
    throw. *)
Class WebStorage := {
  setItem : string -> string -> M unit
}.

(** The summary of a project that the listing shows. *)
Record ProjectMetadata := mkMetadata {
  meta_id : string;
  meta_name : string;
  slideCount : nat;
  carouselCount : nat;
  meta_createdAt : string;
  meta_modifiedAt : string;
  meta_description : option string
}.

Section Methods.
Context `{JSON (list Project)} `{JSON (list CustomLayout)}
        `{JSON (list CustomFont)} `{JSON FontSettings} `{StorageUtils}
        `{WebStorage}.

Definition sameProject (id : string) (p : Project) : bool :=
  String.eqb (project_id p) id.

Definition getProject (id : string) : M (option Project) :=
  let* projects := getAllProjects in
  ret (List.find (sameProject id) projects).

Definition deleteProject (id : string) : M unit :=
  let* projects := getAllProjects in
  let filtered := List.filter (fun p => negb (sameProject id p)) projects in
  tryCatch (setItem PROJECTS (JSON_stringify filtered))
           (fun _ => throw (Error "Failed to delete project")).

(** [nowMs] is [Date.now()]; [created] and [modified] are the two
    [new Date().toISOString()] of the object literal and [saved] is the one
    inside [saveProject], which writes [modifiedAt] of the very object that
    is returned. *)
Definition duplicateOf (project : Project) (nowMs : N) (created modified : string)
  : Project :=
  mkProject (project_id project +:+ "-copy-" +:+ String_of_N nowMs)
            (project_name project +:+ " (Copy)")
            (carousels project) created modified (project_description project).

Definition duplicateProject (id : string) (nowMs : N) (created modified saved : string)
  : M Project :=
  let* project := getProject id in
  match project with
  | None => throw (Error "Project not found")
  | Some project =>
      let newProject := duplicateOf project nowMs created modified in
      let* _ := saveProject newProject saved in
      ret (set_modifiedAt saved newProject)
  end.

(** [p.carousels.reduce((sum, c) => sum + c.slides.length, 0)] *)
Definition countSlides (cs : list Carousel) : nat :=
  fold_left (fun sum c => sum + length (slides c)) cs 0.

Definition metadataOf (p : Project) : ProjectMetadata :=
  mkMetadata (project_id p) (project_name p) (countSlides (carousels p))
             (length (carousels p)) (project_createdAt p) (project_modifiedAt p)
             (project_description p).

Definition getProjectMetadata : M (list ProjectMetadata) :=
  let* projects := getAllProjects in
  ret (map metadataOf projects).

Definition createNewProject (name : string) (nowMs : N) (created modified saved : string)
  : M Project :=
  let project := mkProject ("project-" +:+ String_of_N nowMs) name [] created modified None in
  let* _ := saveProject project saved in
  ret (set_modifiedAt saved project).

Definition set_name (newName : string) (p : Project) : Project :=
  mkProject (project_id p) newName (carousels p) (project_createdAt p)
            (project_modifiedAt p) (project_description p).

Definition renameProject (id newName : string) (now : string) : M unit :=
  let* project := getProject id in
  match project with
  | None => throw (Error "Project not found")
  | Some project => saveProject (set_name newName project) now
  end.

Definition sameLayout (id : string) (l : CustomLayout) : bool :=
  String.eqb (layout_id l) id.

Definition getCustomLayout (id : string) : M (option CustomLayout) :=
  let* layouts := getAllCustomLayouts in
  ret (List.find (sameLayout id) layouts).

Definition saveCustomLayout (layout : CustomLayout) : M unit :=
  let* layouts := getAllCustomLayouts in
  let layouts := upsert (sameLayout (layout_id layout)) layout layouts in
  tryCatch (safeSetItem CUSTOM_LAYOUTS (JSON_stringify layouts))
           (fun _ => throw (Error "Failed to save custom layout")).

Definition deleteCustomLayout (id : string) : M unit :=
  let* layouts := getAllCustomLayouts in
  let filtered := List.filter (fun l => negb (sameLayout id l)) layouts in
  tryCatch (setItem CUSTOM_LAYOUTS (JSON_stringify filtered))
           (fun _ => throw (Error "Failed to delete custom layout")).

Definition deleteCustomFont (id : string) : M unit :=
  let* fonts := getAllCustomFonts in
  let filtered := List.filter (fun f => negb (String.eqb (font_id f) id)) fonts in
  tryCatch (setItem CUSTOM_FONTS (JSON_stringify filtered))
           (fun _ => throw (Error "Failed to delete font")).

Definition saveFontSettings (settings : FontSettings) : M unit :=
  tryCatch (safeSetItem FONT_SETTINGS (JSON_stringify settings))
           (fun _ => throw (Error "Failed to save font settings")).

(** *** The saved list of Google fonts

    [getFontSettings] returns the object [DEFAULT_FONT_SETTINGS_VALUE]
    itself when nothing usable is stored, and the two methods below change
    the object they were given: [push] on its array, an assignment to its
    property.  The list of Google fonts of that one object is therefore part
    of the state, next to the backend. *)
Record World := mkWorld {
  backend : Backend;
  defaultGoogleFonts : list string
}.

Definition W (A : Type) : Type := World -> World * result A.

Definition liftW {A} (m : M A) : W A :=
  fun w => let '(b, r) := m (backend w) in (mkWorld b (defaultGoogleFonts w), r).

Definition theDefault (w : World) : FontSettings :=
  mkFontSettings (headingFont DEFAULT_FONT_SETTINGS_VALUE)
                 (bodyFont DEFAULT_FONT_SETTINGS_VALUE)
                 (accentFont DEFAULT_FONT_SETTINGS_VALUE)
                 (defaultGoogleFonts w).

(** What [getFontSettings] hands out: the shared default object, or an
    object fresh from [JSON.parse]. *)
Inductive SettingsRef :=
| TheDefault
| Parsed (settings : FontSettings).

Definition deref (w : World) (r : SettingsRef) : FontSettings :=
  match r with
  | TheDefault => theDefault w
  | Parsed settings => settings
  end.

Definition getFontSettingsRef : W SettingsRef :=
  liftW (tryCatch
           (let* stored := getItem FONT_SETTINGS in
            if truthy stored
            then let* settings := parseOrThrow (orElse stored "") in ret (Parsed settings)
            else ret TheDefault)
           (fun _ => ret TheDefault)).

Definition set_googleFonts (fonts : list string) (f : FontSettings) : FontSettings :=
  mkFontSettings (headingFont f) (bodyFont f) (accentFont f) fonts.

(** The object behind [r] gets the list [fonts]. *)
Definition assignGoogleFonts (r : SettingsRef) (fonts : list string) : W SettingsRef :=
  fun w =>
    match r with
    | TheDefault => (mkWorld (backend w) fonts, Ok TheDefault)
    | Parsed settings => (w, Ok (Parsed (set_googleFonts fonts settings)))
    end.

Definition bindW {A B} (c : W A) (k : A -> W B) : W B :=
  fun w => match c w with
           | (w', Ok a) => k a w'
           | (w', Throw e) => (w', Throw e)
           end.

Definition addGoogleFont (family : string) : W unit :=
  bindW getFontSettingsRef (fun r => fun w =>
    let settings := deref w r in
    if has (googleFonts settings) family then (w, Ok tt)
    else
      bindW (assignGoogleFonts r (googleFonts settings ++ [family]))
            (fun r' => fun w' => liftW (saveFontSettings (deref w' r')) w') w).

Definition removeGoogleFont (family : string) : W unit :=
  bindW getFontSettingsRef (fun r => fun w =>
    let settings := deref w r in
    bindW (assignGoogleFonts r
             (List.filter (fun f => negb (String.eqb f family)) (googleFonts settings)))
          (fun r' => fun w' => liftW (saveFontSettings (deref w' r')) w') w).

(** [getFontSettings] as a caller sees it in a world. *)
Definition getFontSettingsW : W FontSettings :=
  bindW getFontSettingsRef (fun r => fun w => (w, Ok (deref w r))).

End Methods.
End Provider.

(** ** The rest of the autosave hook *)

Module AutoSaveEffects.
Import LocalStorage AutoSave.

(** The last but one effect of the hook depends on [hasUnsavedChanges]: its
    cleanup runs when the component unmounts and also at every commit at
    which [hasUnsavedChanges] differs from the value of the render that
    installed it.  The cleanup reads the refs as they are then, and
    [hasUnsavedChanges] as that earlier render saw it ([seen]): it clears
    the timeout of the timer reference and, with unsaved changes seen and a
    project, calls the provider without looking at the in-flight flag. *)
Definition cleanup (seen : bool) (s : State) : State :=
  let cleared :=
    match timerRef s with
    | Some id => clearTimeout id (pending s)
    | None => pending s
    end in
  let calls :=
    match projectRef s with
    | Some project =>
        if seen then (saveCalls s ++ [(clock s, project)])%list else saveCalls s
    | None => saveCalls s
    end in
  mkState (saveStatus s) (hasUnsavedChanges s) (timerRef s) (projectRef s)
          (isSavingRef s) (clock s) cleared (nextTimer s) calls.

(** The hook with the value of [hasUnsavedChanges] that the installed
    cleanup has seen. *)
Record Hook := mkHook {
  inner : State;
  seenUnsaved : bool
}.

(** React commits a render: the effect runs again (cleanup first) when its
    dependency has changed. *)
Definition commit (h : Hook) : Hook :=
  if Bool.eqb (hasUnsavedChanges (inner h)) (seenUnsaved h) then h
  else mkHook (cleanup (seenUnsaved h) (inner h)) (hasUnsavedChanges (inner h)).

Definition unmount (h : Hook) : State := cleanup (seenUnsaved h) (inner h).

Inductive hookEvent :=
| Event (e : event)
| Commit.

Definition hookStep (o : Options) (h : Hook) (e : hookEvent) : Hook :=
  match e with
  | Event e => mkHook (step o (inner h) e) (seenUnsaved h)
  | Commit => commit h
  end.

Definition hookRun (o : Options) (h : Hook) (es : list hookEvent) : Hook :=
  fold_left (hookStep o) es h.

(** The hook after its first commit with project [p] at time [t]. *)
Definition hookMounted (p : option Project) (t : N) : Hook :=
  mkHook (mounted p t) false.

(** Get status display text *)
Definition getSaveStatusText (status : SaveStatus) : string :=
  match status with
  | saved => "Saved"
  | saving => "Saving..."
  | unsaved => "Unsaved changes"
  | error => "Save failed"
  end.

(** Get status color class *)
Definition getSaveStatusColor (status : SaveStatus) : string :=
  match status with
  | saved => "text-green-500"
  | saving => "text-yellow-500"
  | unsaved => "text-orange-500"
  | error => "text-red-500"
  end.

End AutoSaveEffects.

(** ** The rest of the recent-projects handlers *)

Module RecentHandlers.
Import LocalStorage Recent.

Section Handlers.
Context `{JSON (list RecentEntry)}.

(** The [recent:get] handler: the parsed file, the empty list when there is
    no file or it does not parse. *)
Definition recentGet (d : Disk) : list RecentEntry :=
  match recentFile d with
  | Some content =>
      match JSON_parse content with
      | Some recent => recent
      | None => []
      end
  | None => []
  end.

(** The [recent:clear] handler. *)
Definition recentClear (d : Disk) : Disk * Response :=
  if readOnly d then (d, failure "Error: EACCES")
  else (mkDisk (Some "[]") (readOnly d), success).

End Handlers.
End RecentHandlers.

(** * Vocabulary of the statements *)

Import JS SvgExport.

(** In the spec's words: each of the five reserved characters is replaced
    by its entity, every other character stays. *)
Definition escapeChar (c : ascii) : string :=
  if Ascii.eqb c "&" then "&amp;"
  else if Ascii.eqb c "<" then "&lt;"
  else if Ascii.eqb c ">" then "&gt;"
  else if Ascii.eqb c dquote then "&quot;"
  else if Ascii.eqb c "'" then "&apos;"
  else String c "".

Fixpoint escapeXml_spec (s : string) : string :=
  match s with
  | "" => ""
  | String c r => escapeChar c +:+ escapeXml_spec r
  end.

Definition reserved (c : ascii) : bool :=
  Ascii.eqb c "&" || Ascii.eqb c "<" || Ascii.eqb c ">"
  || Ascii.eqb c dquote || Ascii.eqb c "'".

Fixpoint noneOf (p : ascii -> bool) (s : string) : bool :=
  match s with
  | "" => true
  | String c r => negb (p c) && noneOf p r
  end.

Definition markup (c : ascii) : bool :=
  Ascii.eqb c "<" || Ascii.eqb c ">" || Ascii.eqb c dquote || Ascii.eqb c "'".

Fixpoint memChar (c : ascii) (s : string) : bool :=
  match s with
  | "" => false
  | String x r => Ascii.eqb c x || memChar c r
  end.

Fixpoint mapChars (f : ascii -> ascii) (s : string) : string :=
  match s with
  | "" => ""
  | String c r => String (f c) (mapChars f r)
  end.

(** The characters the spec lets through: [A-Za-z0-9_-]. *)
Definition allowedChars : string :=
  "ABCDEFGHIJKLMNOPQRSTUVWXYZabcdefghijklmnopqrstuvwxyz0123456789_-".

(** The sanitizing the claim words: every other character is removed. *)
Fixpoint removeDisallowed (s : string) : string :=
  match s with
  | "" => ""
  | String c r =>
      if memChar c allowedChars then String c (removeDisallowed r)
      else removeDisallowed r
  end.

(** The sanitizing the code performs: every other character becomes a
    hyphen. *)
Definition hyphenate (c : ascii) : ascii :=
  if memChar c allowedChars then c else "-"%char.

Definition digitValue (c : ascii) : option N :=
  let n := N_of_ascii c in
  if ((48 <=? n) && (n <=? 57))%N then Some (n - 48)%N else None.

Fixpoint decimalValue_from (acc : N) (s : string) : option N :=
  match s with
  | "" => Some acc
  | String c r =>
      match digitValue c with
      | Some d => decimalValue_from (10 * acc + d) r
      | None => None
      end
  end.

(** The number a text of decimal digits denotes. *)
Definition decimalValue (s : string) : option N := decimalValue_from 0 s.

Definition launchSlide : SlideData :=
  mkSlide (Some "Go Live") None None None "#ffffff" "#000000" "#ff0000"
          "header_body" 1 "carousel-1".

Definition squarePreset (side : Q) : ExportPreset :=
  mkPreset "square" "Square" side side.


(** The recent list as the spec wants it: at most ten entries, no path
    twice, newest first. *)
Definition paths (l : list Recent.RecentEntry) : list string := map Recent.path l.

Definition newestFirst (l : list Recent.RecentEntry) : Prop :=
  StronglySorted (fun a b => (Recent.timestamp b <= Recent.timestamp a)%N) l.

Definition recentInv (l : list Recent.RecentEntry) : Prop :=
  length l <= 10 /\ NoDup (paths l) /\ newestFirst l.

(** A series of additions, each with its path, name and time. *)
Definition addAll (ops : list (string * string * N)) (l : list Recent.RecentEntry)
  : list Recent.RecentEntry :=
  fold_left (fun acc op => Recent.addRecent op.1.1 op.1.2 op.2 acc) ops l.

Definition recentDemo : list Recent.RecentEntry :=
  map (fun i => Recent.mkRecent ("/p/" +:+ String_of_N i) "demo" (100 - i)) 
      [0; 1; 2; 3; 4; 5; 6; 7; 8; 9]%N.

(** The stored value under [key] cannot be used: the store is out of reach,
    the key is absent, or its text is not JSON for the type read. *)
Definition unreadable (A : Type) `{LocalStorage.JSON A} (key : string)
    (b : LocalStorage.Backend) : Prop :=
  LocalStorage.blocked b = true
  \/ LocalStorage.items b !! key = None
  \/ exists text, LocalStorage.items b !! key = Some text
                  /\ LocalStorage.JSON_parse (A := A) text = None.



Definition plainUtils : LocalStorage.StorageUtils :=
  {| LocalStorage.safeSetItem := fun key value b =>
       (LocalStorage.mkBackend (<[key := value]> (LocalStorage.items b))
          (LocalStorage.blocked b) (LocalStorage.total b) (LocalStorage.used b),
        LocalStorage.Ok tt);
     LocalStorage.formatBytes := fun n => String_of_N n +:+ " Bytes" |}.

Definition brokenStore : LocalStorage.Backend :=
  LocalStorage.mkBackend
    (<[LocalStorage.PROJECTS := "[{oops"]>
       (<[LocalStorage.FONT_SETTINGS := "not json"]> ∅))
    false 100 40.


Definition demoProject : LocalStorage.Project :=
  LocalStorage.mkProject "project-1700000000000" "Demo" [] "2023-11-14T22:13:20.000Z"
    "2023-11-14T22:13:20.000Z" None.

(** Slides, layouts and settings to evaluate the exporter on. *)
Definition demoFonts : FontSettings := LocalStorage.DEFAULT_FONT_SETTINGS_VALUE.

Definition cardLayout : CustomLayout :=
  mkCustomLayout "card" "Card" "A plain card" "<h1>{{title}}</h1>"
    "h1 { color: {{font_color}}; }" "2024-01-01T00:00:00.000Z"
    None None None None None.

Definition dollarSlide : SlideData :=
  mkSlide (Some "R$&D") None None None "#ffffff" "#000000" "#ff0000"
          "custom-card" 1 "carousel-1".


(** The string values a built-in layout may interpolate as they are: the
    three colours of the slide and the three font names. *)
Definition styleValues (s : SlideData) (f : FontSettings) : list string :=
  [background_color s; font_color s; accent_color s;
   headingFont f; bodyFont f; accentFont f].

(** Every interpolated string of a template is a colour, a font name, a
    printed index, or a text that went through [escapeXml]. *)
Definition textEscaped (s : SlideData) (f : FontSettings) (l : list piece) : Prop :=
  forall v, In (Val v) l ->
    In v (styleValues s f) \/ (exists i, v = String_of_N i) \/ (exists t, v = escapeXml t).




(** A slide without title and without body text. *)
Definition bareSlide (sub q : option string) (bg fc ac lt : string) (n : N)
    (cid : string) : SlideData :=
  mkSlide None sub None q bg fc ac lt n cid.

(** The whole of the header/body layout when title and body text are
    absent: the background and the accent bar. *)
Definition headerBodyBare (s : SlideData) (width height : Q) : list piece :=
  background s width height ++
  [ T "
    <g id=^content^>
      "; Text ""; T "

      <rect id=^accent-element^
            x=^"; Num (width / 2 - 50); T "^ y=^"; Num (height * 0.42); T "^
            width=^100^ height=^4^
            fill=^"; Val (accent_color s); T "^/>

      "; Text ""; T "
    </g>" ].










(** The timeouts that are pending belong to the hook's timer reference. *)
Definition timersInv (s : AutoSave.State) : Prop :=
  forall t, In t (AutoSave.pending s) -> AutoSave.timerRef s = Some (fst t).

Definition demoOptions : AutoSave.Options := AutoSave.mkOptions 2000 true.

(** The whole of the dictionary entry layout when title, subtitle and body
    text are absent: the background and the accent line. *)
Definition dictionaryEntryBare (s : SlideData) (width height : Q) : list piece :=
  let padding := (Qmin width height * 0.06)%Q in
  let titleSize := (Qmin width height * 0.08)%Q in
  let subtitleSize := (Qmin width height * 0.025)%Q in
  background s width height ++
  [ T "
    <g id=^content^>
      "; Text ""; T "

      "; Text ""; T "

      <line id=^accent-element^
            x1=^"; Num padding; T "^ y1=^"; Num (padding + titleSize + subtitleSize + 30)%Q; T "^
            x2=^"; Num (width - padding)%Q; T "^ y2=^"; Num (padding + titleSize + subtitleSize + 30)%Q; T "^
            stroke=^"; Val (accent_color s); T "^
            stroke-width=^2^/>

      "; Text ""; T "
    </g>" ].

(** * Vocabulary of the further statements *)

(** After an ampersand, the rest of one of the five entities. *)
Definition entityTail (s : string) : bool :=
  startsWith "amp;" s || startsWith "lt;" s || startsWith "gt;" s
  || startsWith "quot;" s || startsWith "apos;" s.

(** A text in which every ampersand starts an entity and no angle bracket
    or quote occurs. *)
Fixpoint wellEscaped (s : string) : bool :=
  match s with
  | "" => true
  | String c r =>
      (if Ascii.eqb c "&" then entityTail r else negb (markup c)) && wellEscaped r
  end.

Fixpoint countChar (c : ascii) (s : string) : nat :=
  match s with
  | "" => 0
  | String x r => (if Ascii.eqb x c then 1 else 0) + countChar c r
  end.


Definition isBrace (c : ascii) : bool := Ascii.eqb c "{".
Definition isDollar (c : ascii) : bool := Ascii.eqb c "$".

Definition withTitle (t : option string) (s : SlideData) : SlideData :=
  mkSlide t (subtitle s) (body_text s) (quote s) (background_color s)
          (font_color s) (accent_color s) (layout_type s) (slide_number s)
          (carousel_id s).

Definition withNumber (n : N) (s : SlideData) : SlideData :=
  mkSlide (title s) (subtitle s) (body_text s) (quote s) (background_color s)
          (font_color s) (accent_color s) (layout_type s) n (carousel_id s).

Definition withTemplate (html : string) (l : CustomLayout) : CustomLayout :=
  mkCustomLayout (layout_id l) (layout_name l) (description l) html (cssTemplate l)
    (createdAt l) (modifiedAt l) (isFromFigma l) (originalSvg l) (detectedFonts l)
    (detectedColors l).


(** A codec to run the provider on: values are written by [write], and a
    text is read back as the first of the values [known] that is written so. *)
Definition knownJSON {A} (write : A -> string) (known : list A) : LocalStorage.JSON A :=
  {| LocalStorage.JSON_parse := fun text => List.find (fun v => String.eqb (write v) text) known;
     LocalStorage.JSON_stringify := write |}.

Definition writeProjects (l : list LocalStorage.Project) : string :=
  "[" +:+ join "," (map (fun p => LocalStorage.project_id p +:+ "@"
                                  +:+ LocalStorage.project_modifiedAt p) l) +:+ "]".

Definition writeSettings (f : FontSettings) : string :=
  "{" +:+ join "," (headingFont f :: bodyFont f :: accentFont f :: googleFonts f) +:+ "}".

(** A [setItem] that always stores. *)
Definition plainWeb : Provider.WebStorage :=
  {| Provider.setItem := fun key value b =>
       (LocalStorage.mkBackend (<[key := value]> (LocalStorage.items b))
          (LocalStorage.blocked b) (LocalStorage.total b) (LocalStorage.used b),
        LocalStorage.Ok tt) |}.

(** A [safeSetItem] that always refuses. *)
Definition refusingUtils : LocalStorage.StorageUtils :=
  {| LocalStorage.safeSetItem := fun _ _ b =>
       (b, LocalStorage.Throw (LocalStorage.Error "QuotaExceededError"));
     LocalStorage.formatBytes := fun n => String_of_N n +:+ " Bytes" |}.

Definition emptyStore : LocalStorage.Backend := LocalStorage.mkBackend ∅ false 5000 0.

Definition otherProject : LocalStorage.Project :=
  LocalStorage.mkProject "project-1700000000001" "Other"
    [LocalStorage.mkCarousel "Launch" [launchSlide; withNumber 2 launchSlide];
     LocalStorage.mkCarousel "Teaser" [launchSlide]]
    "2023-11-14T22:13:21.000Z" "2023-11-14T22:13:21.000Z" None.

Definition storeWith (l : list LocalStorage.Project) : LocalStorage.Backend :=
  LocalStorage.mkBackend (<[LocalStorage.PROJECTS := writeProjects l]> ∅) false 5000 0.

Definition savedDemo : LocalStorage.Project :=
  LocalStorage.set_modifiedAt "2024-01-01T00:00:00.000Z" demoProject.

Definition projectsJSON : LocalStorage.JSON (list LocalStorage.Project) :=
  knownJSON writeProjects
    [[]; [savedDemo]; [otherProject]; [demoProject; otherProject]].

Definition storedBackend (text : string) : LocalStorage.Backend :=
  LocalStorage.mkBackend (<[LocalStorage.PROJECTS := text]> ∅) false 5000 0.

Definition copyOfOther : LocalStorage.Project :=
  LocalStorage.set_modifiedAt "2024-02-02T00:00:02.000Z"
    (Provider.duplicateOf otherProject 1706832000000 "2024-02-02T00:00:00.000Z"
       "2024-02-02T00:00:01.000Z").

Definition duplicatesJSON : LocalStorage.JSON (list LocalStorage.Project) :=
  knownJSON writeProjects [[otherProject]; [otherProject; copyOfOther]].

Definition settingsKnownJSON (known : list FontSettings) : LocalStorage.JSON FontSettings :=
  knownJSON writeSettings known.

Definition withInter : FontSettings :=
  mkFontSettings "AT-Kyrios Standard" "AT-Kyrios Text" "Merriweather" ["Inter"].

Definition settingsBackend (f : FontSettings) : LocalStorage.Backend :=
  LocalStorage.mkBackend (<[LocalStorage.FONT_SETTINGS := writeSettings f]> ∅) false 5000 0.

Definition freshWorld : Provider.World := Provider.mkWorld emptyStore [].

(** The world after the object behind [r] got the list [fonts] and the
    backend became [b']. *)
Definition afterAssign (w : Provider.World) (r : Provider.SettingsRef)
    (fonts : list string) (b' : LocalStorage.Backend) : Provider.World :=
  match r with
  | Provider.TheDefault => Provider.mkWorld b' fonts
  | Provider.Parsed _ => Provider.mkWorld b' (Provider.defaultGoogleFonts w)
  end.


(** The list [l] is what the handlers read from the disk: the parsed file,
    or the empty list when there is no file. *)
Definition holdsRecent `{LocalStorage.JSON (list Recent.RecentEntry)}
    (d : Recent.Disk) (l : list Recent.RecentEntry) : Prop :=
  match Recent.recentFile d with
  | Some content => LocalStorage.JSON_parse content = Some l
  | None => l = []
  end.

(** A series of calls of [recent:add], each with its path, name and time;
    the disk after the last one. *)
Definition addSeries `{LocalStorage.JSON (list Recent.RecentEntry)}
    (ops : list (string * string * N)) (d : Recent.Disk) : Recent.Disk :=
  fold_left (fun acc op => fst (Recent.recentAdd op.1.1 op.1.2 op.2 acc)) ops d.

Definition writeRecent (l : list Recent.RecentEntry) : string :=
  "[" +:+ join "," (map (fun r => Recent.path r +:+ "|" +:+ Recent.name r +:+ "|"
                                   +:+ String_of_N (Recent.timestamp r)) l) +:+ "]".

Definition recentJSON : LocalStorage.JSON (list Recent.RecentEntry) :=
  knownJSON writeRecent
    [[]; [Recent.mkRecent "/p/a" "A" 7]; recentDemo;
     Recent.addRecent "/p/3" "again" 200 recentDemo].

Definition corruptDisk : Recent.Disk := Recent.mkDisk (Some "{oops") false.

Definition renamedOther : LocalStorage.Project :=
  LocalStorage.set_modifiedAt "2024-03-03T00:00:00.000Z"
    (Provider.set_name "Renamed" otherProject).

Definition renameJSON : LocalStorage.JSON (list LocalStorage.Project) :=
  knownJSON writeProjects [[otherProject]; [renamedOther]].

(** * Properties *)


(** ** String helpers *)

Lemma append_nil_r (s : string) : s +:+ "" = s.
Proof. induction s as [|c s IH]; simpl; congruence. Qed.

Lemma append_assoc (a b c : string) : (a +:+ b) +:+ c = a +:+ (b +:+ c).
Proof. induction a as [|x a IH]; simpl; congruence. Qed.

Lemma length_append (a b : string) :
  String.length (a +:+ b) = String.length a + String.length b.
Proof. induction a as [|x a IH]; simpl; congruence. Qed.

(** Replacing a single character by a text that the expansion of
    replacement patterns leaves alone is a character-wise substitution. *)
Lemma replaceAll_char (c : ascii) (repl : string) :
  (forall m b a, getSubstitution m b a repl = repl) ->
  forall s before,
    replaceAll_from (String c "") repl before 0 s
    = replaceClass (Ascii.eqb c) repl s.
Proof.
  intros Hrepl s. induction s as [|x s IH]; intros before; simpl; [reflexivity|].
  destruct (Ascii.eqb c x) eqn:E; simpl.
  - rewrite Hrepl, IH. reflexivity.
  - rewrite IH. reflexivity.
Qed.

Lemma replaceClass_append (p : ascii -> bool) (repl a b : string) :
  replaceClass p repl (a +:+ b) = replaceClass p repl a +:+ replaceClass p repl b.
Proof.
  induction a as [|x a IH]; simpl; [reflexivity|].
  rewrite IH, append_assoc. reflexivity.
Qed.

(** ** [escapeXml] *)


Lemma escapeXml_append (a b : string) :
  escapeXml (a +:+ b) = escapeXml a +:+ escapeXml b.
Proof.
  unfold escapeXml, replaceAll, dq.
  rewrite !replaceAll_char by (intros; reflexivity).
  now rewrite !replaceClass_append.
Qed.

Lemma escapeXml_char (c : ascii) : escapeXml (String c "") = escapeChar c.
Proof.
  destruct c as [[] [] [] [] [] [] [] []]; reflexivity.
Qed.

(** The five replacements in a row, ampersand first, amount to one pass
    that replaces each reserved character once: no entity is escaped a
    second time. *)
Lemma escapeXml_charwise (s : string) : escapeXml s = escapeXml_spec s.
Proof.
  induction s as [|c s IH]; [reflexivity|].
  change (String c s) with (String c "" +:+ s).
  rewrite escapeXml_append, escapeXml_char, IH. reflexivity.
Qed.

Lemma escapeXml_id (s : string) : noneOf reserved s = true -> escapeXml s = s.
Proof.
  rewrite escapeXml_charwise.
  induction s as [|c s IH]; simpl; [reflexivity|].
  intros Hs. apply andb_true_iff in Hs as [Hc Hs].
  rewrite (IH Hs). unfold escapeChar, reserved in *.
  destruct (Ascii.eqb c "&"), (Ascii.eqb c "<"), (Ascii.eqb c ">"),
    (Ascii.eqb c dquote), (Ascii.eqb c "'"); simpl in Hc; try discriminate.
  reflexivity.
Qed.

Lemma noneOf_append (p : ascii -> bool) (a b : string) :
  noneOf p (a +:+ b) = noneOf p a && noneOf p b.
Proof.
  induction a as [|x a IH]; simpl; [reflexivity|].
  rewrite IH. now rewrite andb_assoc.
Qed.

(** No angle bracket and no quote survives the escape. *)
Lemma escapeXml_no_markup (s : string) : noneOf markup (escapeXml s) = true.
Proof.
  rewrite escapeXml_charwise.
  induction s as [|c s IH]; simpl; [reflexivity|].
  rewrite noneOf_append, IH, andb_true_r.
  destruct c as [[] [] [] [] [] [] [] []]; reflexivity.
Qed.

(** ** File names of exported slides *)

Lemma unsafeNameChar_allowed (c : ascii) :
  unsafeNameChar c = negb (memChar c allowedChars).
Proof. destruct c as [[] [] [] [] [] [] [] []]; reflexivity. Qed.

Lemma replaceClass_hyphenate (s : string) :
  replaceClass unsafeNameChar "-" s = mapChars hyphenate s.
Proof.
  induction s as [|c s IH]; simpl; [reflexivity|].
  rewrite IH, unsafeNameChar_allowed. unfold hyphenate.
  destruct (memChar c allowedChars); reflexivity.
Qed.

Lemma decimal_fuel_acc (fuel : nat) : forall n acc,
  decimal_fuel fuel n acc = decimal_fuel fuel n "" +:+ acc.
Proof.
  induction fuel as [|k IH]; intros n acc; simpl; [reflexivity|].
  destruct (n <? 10)%N; [reflexivity|].
  rewrite IH, (IH _ (String _ "")), append_assoc. reflexivity.
Qed.

Lemma decimalValue_from_snoc (s : string) : forall acc d,
  (d < 10)%N ->
  decimalValue_from acc (s +:+ String (digitChar d) "")
  = option_map (fun v => (10 * v + d)%N) (decimalValue_from acc s).
Proof.
  assert (Hd : forall d, (d < 10)%N -> digitValue (digitChar d) = Some d).
  { intros d Hd. unfold digitValue, digitChar.
    rewrite N_ascii_embedding by lia.
    replace ((48 <=? 48 + d) && (48 + d <=? 57))%N with true.
    - f_equal. lia.
    - symmetry. apply andb_true_iff. split; apply N.leb_le; lia. }
  induction s as [|c s IH]; intros acc d Hlt; simpl.
  - rewrite (Hd d Hlt). reflexivity.
  - destruct (digitValue c); [apply IH; assumption | reflexivity].
Qed.

Lemma log2_tenth (n : N) (k : nat) :
  (10 <= n)%N -> N.to_nat (N.log2 n) < S k -> N.to_nat (N.log2 (n / 10)) < k.
Proof.
  intros Hn Hk.
  assert (H2 : (N.log2 (n / 10) <= N.log2 (N.div2 n))%N).
  { apply N.log2_le_mono. rewrite N.div2_div.
    apply N.div_le_lower_bound; [lia|].
    pose proof (N.Div0.mul_div_le n 10).
    pose proof (N.Div0.mul_div_le n 2).
    pose proof (N.mul_succ_div_gt n 2 ltac:(lia)).
    pose proof (N.mul_succ_div_gt n 10 ltac:(lia)). nia. }
  rewrite N.div2_spec, N.log2_shiftr in H2.
  assert (1 <= N.log2 n)%N.
  { change 1%N with (N.log2 2). apply N.log2_le_mono. lia. }
  lia.
Qed.

Lemma decimalValue_decimal_fuel (fuel : nat) : forall n,
  N.to_nat (N.log2 n) < fuel ->
  decimalValue (decimal_fuel fuel n "") = Some n.
Proof.
  unfold decimalValue.
  induction fuel as [|k IH]; intros n Hk; [lia|]. simpl.
  destruct (n <? 10)%N eqn:E.
  - apply N.ltb_lt in E.
    change (String (digitChar (n mod 10)) "") with ("" +:+ String (digitChar (n mod 10)) "").
    rewrite decimalValue_from_snoc by (apply N.mod_lt; lia). simpl.
    rewrite N.mod_small by lia. reflexivity.
  - apply N.ltb_ge in E.
    rewrite decimal_fuel_acc, decimalValue_from_snoc by (apply N.mod_lt; lia).
    rewrite IH by (apply log2_tenth; assumption). simpl. f_equal.
    pose proof (N.div_mod n 10 ltac:(lia)). lia.
Qed.

Lemma decimalValue_String_of_N (n : N) : decimalValue (String_of_N n) = Some n.
Proof. apply decimalValue_decimal_fuel. lia. Qed.

Lemma decimalValue_zeros (k : nat) (s : string) :
  decimalValue (repeatChar "0" k +:+ s) = decimalValue s.
Proof. induction k as [|k IH]; simpl; [reflexivity | exact IH]. Qed.

Lemma length_repeatChar (c : ascii) (k : nat) : String.length (repeatChar c k) = k.
Proof. induction k as [|k IH]; simpl; congruence. Qed.

(** C8, as the code has it: the name of an exported slide is the carousel
    name with every character outside [A-Za-z0-9_-] REPLACED BY A HYPHEN
    (the name keeps its length), then [-slide-], then the slide number in
    decimal, padded with zeros on the left to at least three digits, then a
    dot and the format.  The slide number ranges over the integers that the
    engine prints as plain decimal digits. *)
Theorem generateSlideFilename_shape
    (slide : SlideData) (carouselName : string) (preset : ExportPreset) (fmt : Format) :
  (slide_number slide < 10 ^ 21)%N ->
  let digits := padStart 3 "0" (String_of_N (slide_number slide)) in
  generateSlideFilename slide carouselName preset fmt
    = mapChars hyphenate carouselName +:+ "-slide-" +:+ digits +:+ "."
        +:+ formatName fmt
  /\ String.length digits = Nat.max 3 (String.length (String_of_N (slide_number slide)))
  /\ decimalValue digits = Some (slide_number slide)
  /\ generateSlideFilename launchSlide "Launch" preset svg = "Launch-slide-001.svg".
Proof.
  intros _ digits. unfold generateSlideFilename. fold digits.
  rewrite replaceClass_hyphenate. split; [reflexivity|].
  unfold digits, padStart. split; [|split].
  - rewrite length_append, length_repeatChar. lia.
  - rewrite decimalValue_zeros. apply decimalValue_String_of_N.
  - reflexivity.
Qed.

Lemma generateSlideFilename_shape_witness :
  (slide_number launchSlide < 10 ^ 21)%N
  /\ generateSlideFilename launchSlide "My Launch!" (squarePreset 1080) png
     = "My-Launch--slide-001.png".
Proof.
  split; [reflexivity|].
  destruct (generateSlideFilename_shape launchSlide "My Launch!" (squarePreset 1080) png
              ltac:(reflexivity)) as [Hname _].
  rewrite Hname. reflexivity.
Defined.

(** C8 as worded fails: a character outside the class is not removed. *)
Lemma generateSlideFilename_not_removal :
  generateSlideFilename launchSlide "My Launch" (squarePreset 1080) svg
  <> removeDisallowed "My Launch" +:+ "-slide-"
       +:+ padStart 3 "0" (String_of_N (slide_number launchSlide)) +:+ "." +:+ formatName svg.
Proof. vm_compute. discriminate. Qed.

(** ** The recent-projects list *)

Section RecentList.
Import Recent.

Lemma StronglySorted_sublist {A} (R : A -> A -> Prop) (l k : list A) :
  l `sublist_of` k -> StronglySorted R k -> StronglySorted R l.
Proof.
  induction 1 as [|x l k Hs IH|x l k Hs IH]; intros Hk.
  - constructor.
  - apply StronglySorted_cons in Hk as [Hall Hk].
    apply StronglySorted_cons. split; [|auto].
    apply Forall_forall. intros y Hy.
    eapply Forall_forall in Hall; [exact Hall|].
    eapply elem_of_sublist; eassumption.
  - apply StronglySorted_cons in Hk as [_ Hk]. auto.
Qed.

Lemma paths_filtered (p : string) (l : list RecentEntry) :
  p ∉ paths (filter (fun r => path r <> p) l).
Proof.
  unfold paths. rewrite list_elem_of_fmap. intros (r & -> & Hr).
  apply list_elem_of_filter in Hr as [Hne _]. congruence.
Qed.

Lemma filter_keeps_all (p : string) (l : list RecentEntry) :
  p ∉ paths l -> filter (fun r => path r <> p) l = l.
Proof.
  induction l as [|r l IH]; intros Hp; [reflexivity|].
  unfold paths in Hp. simpl in Hp. apply not_elem_of_cons in Hp as [Hne Hp].
  rewrite filter_cons. case_decide; [f_equal; auto | congruence].
Qed.

Lemma filter_drops_one (p : string) (l : list RecentEntry) :
  NoDup (paths l) -> p ∈ paths l ->
  S (length (filter (fun r => path r <> p) l)) = length l.
Proof.
  induction l as [|r l IH]; intros Hnd Hin; [inversion Hin|].
  unfold paths in *. simpl in *. apply NoDup_cons in Hnd as [Hr Hnd].
  destruct (decide (path r = p)) as [Heq|Hne].
  - rewrite filter_cons. case_decide; [congruence|]. subst p.
    rewrite (filter_keeps_all _ l Hr). reflexivity.
  - rewrite filter_cons. case_decide; [|congruence]. simpl. f_equal.
    apply IH; [assumption|]. apply elem_of_cons in Hin as [?|?]; congruence.
Qed.

Lemma addRecent_unfold (p n : string) (now : N) (recent : list RecentEntry) :
  addRecent p n now recent
  = mkRecent p n now :: take 9 (filter (fun r => path r <> p) recent).
Proof. reflexivity. Qed.

(** One addition keeps the three properties of the list. *)
Lemma addRecent_recentInv (p n : string) (now : N) (recent : list RecentEntry) :
  recentInv recent ->
  (forall r, r ∈ recent -> (timestamp r <= now)%N) ->
  recentInv (addRecent p n now recent).
Proof.
  intros (Hlen & Hnd & Hsort) Hclock.
  assert (Hsub : take 9 (filter (fun r => path r <> p) recent) `sublist_of` recent).
  { etransitivity; [apply sublist_take | apply sublist_filter]. }
  rewrite addRecent_unfold. repeat split.
  - simpl. rewrite length_take. lia.
  - unfold paths. simpl. apply NoDup_cons. split.
    + intros Hin. apply (paths_filtered p recent).
      unfold paths. eapply elem_of_sublist; [exact Hin|].
      apply fmap_sublist, sublist_take.
    + eapply sublist_NoDup; [exact Hnd | apply fmap_sublist, Hsub].
  - apply StronglySorted_cons. split.
    + apply Forall_forall. intros r Hr. simpl. apply Hclock.
      eapply elem_of_sublist; eassumption.
    + eapply StronglySorted_sublist; eassumption.
Qed.



(** Any series of additions to the empty list, with times that do not
    decrease, ends in a list with the three properties. *)
Lemma addAll_recentInv (ops : list (string * string * N)) :
  StronglySorted (fun a b => (a.2 <= b.2)%N) ops ->
  recentInv (addAll ops []).
Proof.
  intros Hops.
  assert (Hgen : forall l, recentInv l ->
            (forall r op, r ∈ l -> op ∈ ops -> (timestamp r <= op.2)%N) ->
            recentInv (addAll ops l)).
  { induction Hops as [|op ops Hs IH Hall]; intros l Hl Hbound; [exact Hl|].
    simpl. apply IH.
    - apply addRecent_recentInv; [exact Hl|].
      intros r Hr. apply Hbound; [exact Hr | left].
    - intros r op' Hr Hop'. rewrite addRecent_unfold in Hr.
      apply elem_of_cons in Hr as [->|Hr].
      + simpl. eapply Forall_forall in Hall; [exact Hall | exact Hop'].
      + apply Hbound; [|right; exact Hop'].
        eapply elem_of_sublist; [exact Hr|].
        etransitivity; [apply sublist_take | apply sublist_filter]. }
  apply Hgen.
  - repeat split; [simpl; lia | constructor | constructor].
  - intros r op Hr. inversion Hr.
Qed.

Section HandlerFacts.
Context `{LocalStorage.JSON (list RecentEntry)}.
Import LocalStorage.

(** What the handler leaves on disk: the list computed from the parsed old
    file (the empty list when there is no file); nothing is written when
    the old file does not parse. *)
Lemma recentAdd_writes (p n : string) (now : N) (d : Disk) (recent : list RecentEntry) :
  readOnly d = false ->
  match recentFile d with
  | Some content => JSON_parse content = Some recent
  | None => recent = []
  end ->
  recentAdd p n now d
  = (mkDisk (Some (JSON_stringify (addRecent p n now recent))) false, success).
Proof.
  intros Hw Hfile. unfold recentAdd. rewrite Hw.
  destruct (recentFile d); [rewrite Hfile | subst recent]; reflexivity.
Qed.

Lemma recentAdd_unparsable (p n : string) (now : N) (d : Disk) (content : string) :
  recentFile d = Some content -> JSON_parse content = None ->
  fst (recentAdd p n now d) = d.
Proof. intros Hf Hp. unfold recentAdd. rewrite Hf, Hp. reflexivity. Qed.

End HandlerFacts.
End RecentList.

(** ** The browser-storage provider *)

Section Storage.
Import LocalStorage.
Context `{JP : JSON (list Project)} `{JL : JSON (list CustomLayout)}
        `{JF : JSON (list CustomFont)} `{JS : JSON FontSettings}
        `{SU : StorageUtils}.

Lemma readOr_total {A} `{JSON A} (key : string) (dflt : A) (b : Backend) :
  exists v, readOr key dflt b = (b, Ok v).
Proof.
  unfold readOr, tryCatch, bind, getItem, parseOrThrow, ret, throw.
  destruct (blocked b); [eauto|].
  destruct (truthy (items b !! key)); [|eauto].
  destruct (JSON_parse _); eauto.
Qed.

Lemma readOr_default {A} `{JSON A} (key : string) (dflt : A) (b : Backend) :
  unreadable A key b -> readOr key dflt b = (b, Ok dflt).
Proof.
  unfold readOr, tryCatch, bind, getItem, parseOrThrow, ret, throw.
  intros [Hb | [Hnone | (text & Hsome & Hparse)]].
  - rewrite Hb. reflexivity.
  - destruct (blocked b); [reflexivity|]. rewrite Hnone. reflexivity.
  - destruct (blocked b); [reflexivity|]. rewrite Hsome.
    destruct text as [|c text]; [reflexivity|].
    simpl. simpl in Hparse. rewrite Hparse. reflexivity.
Qed.



(** With room left, the write goes through [safeSetItem] with the whole
    rewritten collection. *)
Lemma saveProject_enough_space
    (b : Backend) (project : Project) (now : string) (projects : list Project) :
  getAllProjects b = (b, Ok projects) ->
  let rewritten :=
    upsert (fun p => String.eqb (project_id p) (project_id project))
           (set_modifiedAt now project) projects in
  (estimateDataSize rewritten <= total b - used b)%N ->
  forall b', safeSetItem PROJECTS (JSON_stringify rewritten) b = (b', Ok tt) ->
  saveProject project now b = (b', Ok tt).
Proof.
  intros Hget rewritten Hfit b' Hset.
  unfold saveProject, bind. rewrite Hget. simpl.
  fold rewritten. apply N.leb_le in Hfit. rewrite Hfit. simpl.
  unfold tryCatch. rewrite Hset. reflexivity.
Qed.

(** *** Font upload *)

Lemma uploadFont_unsupported (file : File) (data : string) (nowMs : N) (nowIso : string)
    (b : Backend) :
  file_dataURL file = Some data ->
  (forall ext, fileExtension (file_name file) = Some ext -> ext ∉ supportedFormats) ->
  uploadFont file nowMs nowIso b
  = (b, Throw (Error "Unsupported font format. Please use TTF, OTF, WOFF, or WOFF2.")).
Proof.
  intros Hdata Hext. unfold uploadFont. rewrite Hdata.
  destruct (fileExtension (file_name file)) as [[|c ext]|] eqn:E; try reflexivity.
  specialize (Hext _ eq_refl).
  replace (has supportedFormats _) with false; [reflexivity|].
  symmetry. apply not_true_is_false. intros Hhas. apply Hext.
  unfold has in Hhas. apply existsb_exists in Hhas as (x & Hx & Heq).
  apply String.eqb_eq in Heq. simpl in Heq. rewrite Heq.
  apply list_elem_of_In. exact Hx.
Qed.

(** Scenario B: the font built from [MyFont-Bold.otf]. *)
Lemma uploadFont_MyFont_Bold (size : N) (data : string) (nowMs : N) (nowIso : string)
    (b : Backend) :
  let font := mkCustomFont ("font-" +:+ String_of_N nowMs) "MyFont-Bold" "MyFont Bold"
                           "otf" data nowIso in
  uploadFont (mkFile "MyFont-Bold.otf" size (Some data)) nowMs nowIso b
  = (let* _ := saveCustomFont font in ret font) b.
Proof. reflexivity. Qed.

(** C7 at a name without extension: a file that is called [otf], with no
    dot in its name, passes the check of the extension; the upload goes on
    to [saveCustomFont] with a font of format, name and family [otf], and
    never ends in the unsupported-format error. *)
Theorem uploadFont_accepts_name_without_extension
    (size : N) (data : string) (nowMs : N) (nowIso : string) (b : Backend) :
  let file := mkFile "otf" size (Some data) in
  let font := mkCustomFont ("font-" +:+ String_of_N nowMs) "otf" "otf" "otf" data nowIso in
  includes "." (file_name file) = false
  /\ fileExtension (file_name file) = Some "otf"
  /\ uploadFont file nowMs nowIso b = (let* _ := saveCustomFont font in ret font) b
  /\ snd (uploadFont file nowMs nowIso b)
     <> Throw (Error "Unsupported font format. Please use TTF, OTF, WOFF, or WOFF2.").
Proof.
  intros file font. split; [reflexivity|]. split; [reflexivity|].
  split; [reflexivity|].
  change (uploadFont file nowMs nowIso b)
    with ((let* _ := saveCustomFont font in ret font) b).
  unfold bind, saveCustomFont, bind.
  destruct (readOr_total CUSTOM_FONTS [] b) as [fonts Hfonts].
  unfold getAllCustomFonts. rewrite Hfonts. simpl.
  destruct (_ <=? _)%N; simpl; [|discriminate].
  unfold tryCatch.
  destruct (safeSetItem _ _ b) as [b2 [[]|e]]; simpl; discriminate.
Qed.

End Storage.



(** ** Escaping in the layouts *)

Section Escaping.
Context (slide : SlideData) (width height : Q) (fonts : FontSettings).

Ltac piece_cases H :=
  repeat rewrite in_app_iff in H; simpl in H;
  repeat match type of H with
         | _ \/ _ => destruct H as [H|H]
         end;
  try discriminate H; try contradiction;
  try (injection H as <-);
  try (left; simpl; tauto);
  try (right; right; eexists; reflexivity).

Lemma renderDictionaryEntry_escapes :
  textEscaped slide fonts (renderDictionaryEntry_tpl slide width height fonts).
Proof.
  intros v H. unfold renderDictionaryEntry_tpl, background in H.
  destruct (truthy (title slide)), (truthy (subtitle slide)), (truthy (body_text slide));
    piece_cases H.
Qed.

Lemma renderHeaderBody_escapes :
  textEscaped slide fonts (renderHeaderBody_tpl slide width height fonts).
Proof.
  intros v H. unfold renderHeaderBody_tpl, background in H.
  destruct (truthy (title slide)), (truthy (body_text slide)); piece_cases H.
Qed.

Lemma renderQuoteHighlight_escapes :
  textEscaped slide fonts (renderQuoteHighlight_tpl slide width height fonts).
Proof.
  intros v H. unfold renderQuoteHighlight_tpl, background in H.
  destruct (truthy (orOpt (quote slide) (body_text slide))), (truthy (title slide));
    piece_cases H.
Qed.

Lemma renderMinimalistFocus_escapes :
  textEscaped slide fonts (renderMinimalistFocus_tpl slide width height fonts).
Proof.
  intros v H. unfold renderMinimalistFocus_tpl, background in H.
  destruct (truthy (title slide)), (truthy (body_text slide)); piece_cases H.
Qed.

Lemma in_concat_imap {A B} (f : nat -> A -> list B) (l : list A) (y : B) :
  In y (concat (imap f l)) -> exists i x, In x l /\ In y (f i x).
Proof.
  revert f. induction l as [|x l IH]; intros f H; [contradiction|].
  rewrite imap_cons in H. simpl in H. apply in_app_iff in H as [H|H].
  - exists 0, x. split; [now left | exact H].
  - destruct (IH _ H) as (i & x' & Hx & Hy).
    exists (S i), x'. split; [now right | exact Hy].
Qed.

Lemma renderBoldCallout_escapes :
  textEscaped slide fonts (renderBoldCallout_tpl slide width height fonts).
Proof.
  intros v H. unfold renderBoldCallout_tpl, background in H.
  repeat rewrite in_app_iff in H.
  destruct H as [H|[H|[H|H]]]; try solve [piece_cases H].
  apply in_concat_imap in H as (i & line & _ & H).
  unfold boldCalloutLine in H. simpl in H.
  repeat match type of H with _ \/ _ => destruct H as [H|H] end;
    try discriminate H; try contradiction; injection H as <-.
  - right. left. eexists. reflexivity.
  - left. simpl. tauto.
  - left. simpl. tauto.
  - right. right. eexists. reflexivity.
Qed.

End Escaping.

(** C1, custom layouts: the escaped text is handed to [replace] as a
    replacement pattern.  For the title [R$&D] the escape gives [R$&amp;D];
    in it [$&] stands for the matched placeholder, so the document receives
    [R{{title}}amp;D]: neither the ampersand nor its entity. *)
Theorem renderCustomLayout_dollar_pattern :
  title dollarSlide = Some "R$&D"
  /\ escapeXml "R$&D" = "R$&amp;D"
  /\ customHtml dollarSlide demoFonts cardLayout = "<h1>R{{title}}amp;D</h1>"
  /\ includes (escapeXml "R$&D") (customHtml dollarSlide demoFonts cardLayout) = false
  /\ In (Val "<h1>R{{title}}amp;D</h1>")
        (renderLayoutContent_tpl dollarSlide 1080 1080 demoFonts [cardLayout]).
Proof.
  split; [reflexivity|]. split; [reflexivity|]. split; [reflexivity|].
  split; [reflexivity|].
  vm_compute. do 14 right. left. reflexivity.
Qed.

(** Without a dollar sign in the replacement, every placeholder receives the
    replacement as it is. *)
Lemma getSubstitution_plain (m b a repl : string) :
  noneOf (Ascii.eqb "$") repl = true -> getSubstitution m b a repl = repl.
Proof.
  induction repl as [|c r IH]; intros H; [reflexivity|].
  simpl in H. apply andb_true_iff in H as [Hc Hr].
  specialize (IH Hr). simpl.
  destruct r as [|d r']; [reflexivity|].
  apply negb_true_iff in Hc. rewrite Ascii.eqb_sym, Hc, IH. reflexivity.
Qed.

(** ** Optional text fields *)

Section OptionalFields.
Local Open Scope Q_scope.

(** The guarded layouts leave out the element of an absent field: header/body
    without title and body text has no text element at all. *)
Lemma renderHeaderBody_bare (sub q : option string) (bg fc ac lt : string) (n : N)
    (cid : string) (width height : Q) (fonts : FontSettings) :
  let slide := bareSlide sub q bg fc ac lt n cid in
  renderHeaderBody_tpl slide width height fonts = headerBodyBare slide width height.
Proof. reflexivity. Qed.

Lemma renderHeaderBody_empty_strings (s : SlideData) (width height : Q)
    (fonts : FontSettings) :
  truthy (title s) = false -> truthy (body_text s) = false ->
  renderHeaderBody_tpl s width height fonts = headerBodyBare s width height.
Proof.
  intros Ht Hb. unfold renderHeaderBody_tpl, headerBodyBare.
  rewrite Ht, Hb. reflexivity.
Qed.

Lemma renderDictionaryEntry_empty_strings (s : SlideData) (width height : Q)
    (fonts : FontSettings) :
  truthy (title s) = false -> truthy (subtitle s) = false ->
  truthy (body_text s) = false ->
  renderDictionaryEntry_tpl s width height fonts = dictionaryEntryBare s width height.
Proof.
  intros Ht Hs Hb. unfold renderDictionaryEntry_tpl, dictionaryEntryBare.
  rewrite Ht, Hs, Hb. reflexivity.
Qed.

(** C9 at a slide without title and without body text, in the bold callout
    layout: [(slide.body_text || slide.title || '').split('\n')] is the
    one-element array of the empty string, so one text element,
    [body-text-0], is written, and its content is the empty text. *)
Theorem renderBoldCallout_empty_text_element
    (sub q : option string) (bg fc ac lt : string) (n : N) (cid : string)
    (width height : Q) (fonts : FontSettings) :
  let slide := bareSlide sub q bg fc ac lt n cid in
  let textSize := Qmin width height * 0.06 in
  let lineHeight := textSize * 1.4 in
  let startY := (height - inject_Z 1 * lineHeight) / 2 + textSize in
  boldCalloutLines slide = [""]
  /\ renderBoldCallout_tpl slide width height fonts
     = (background slide width height
        ++ [ T "
    <g id=^content^>
      " ]
        ++ boldCalloutLine slide width fonts textSize lineHeight startY 0 ""
        ++ [ T "
    </g>" ])%list
  /\ In (Val "0") (boldCalloutLine slide width fonts textSize lineHeight startY 0 "")
  /\ In (Val (escapeXml "")) (renderBoldCallout_tpl slide width height fonts)
  /\ escapeXml "" = "".
Proof.
  intros slide textSize lineHeight startY.
  split; [reflexivity|]. split; [reflexivity|]. split; [simpl; tauto|].
  split; [|reflexivity].
  unfold renderBoldCallout_tpl. rewrite !in_app_iff. right. right. left.
  simpl. do 13 right. left. reflexivity.
Qed.

(** The same with empty strings in place of absent fields. *)
Lemma renderBoldCallout_empty_strings (s : SlideData) :
  truthy (body_text s) = false -> truthy (title s) = false ->
  boldCalloutLines s = [""].
Proof.
  unfold boldCalloutLines, orOpt. intros Hb Ht. rewrite Hb.
  destruct (title s) as [[|c t]|]; try discriminate; reflexivity.
Qed.

End OptionalFields.

(** ** Unknown layouts *)





Section Fallback.
Context `{Host}.


End Fallback.



(** ** Doubling the size of the document *)

Section Scaling.
Local Open Scope Q_scope.





Context (slide : SlideData) (width height : Q) (fonts : FontSettings).









End Scaling.




Section ScalingDocument.
Context `{Host}.


End ScalingDocument.


(** ** The autosave hook *)

Section AutoSaveFacts.
Import LocalStorage AutoSave.
Local Open Scope N_scope.

Lemma clearTimeout_own (id : positive) (l : list (positive * N)) :
  (forall t, In t l -> Some id = Some (fst t)) -> clearTimeout id l = [].
Proof.
  induction l as [|t l IH]; intros H; [reflexivity|]. simpl.
  assert (Ht : Some id = Some (fst t)) by (apply H; now left).
  injection Ht as ->. rewrite Pos.eqb_refl. simpl.
  apply IH. intros t' Ht'. apply H. now right.
Qed.

(** After a mark the only pending timeout is the new one. *)
Lemma markChanged_single (o : Options) (s : State) :
  enabled o = true -> timersInv s ->
  markChanged o s
  = mkState unsaved true (Some (nextTimer s)) (projectRef s) (isSavingRef s) (clock s)
            [(nextTimer s, clock s + delay o)] (Pos.succ (nextTimer s)) (saveCalls s).
Proof.
  intros He Hinv. unfold markChanged. rewrite He. simpl.
  replace (match timerRef s with
           | Some id => clearTimeout id (pending s)
           | None => pending s
           end) with (@nil (positive * N)); [reflexivity|].
  unfold timersInv in Hinv. destruct (timerRef s) as [id|].
  - symmetry. apply clearTimeout_own. intros t Ht. rewrite <- (Hinv t Ht). reflexivity.
  - destruct (pending s) as [|t l]; [reflexivity|].
    specialize (Hinv t (or_introl eq_refl)). discriminate.
Qed.


(** Time that passes beyond the due time of the only timeout fires it, at
    its due time: [save] runs then, and calls the provider unless a save is
    in flight. *)
Lemma advance_fire_saves (dt : N) (s : State) (id : positive) (due : N) (p : Project) :
  pending s = [(id, due)] -> clock s <= due -> due <= clock s + dt ->
  projectRef s = Some p -> isSavingRef s = false ->
  advance dt s
  = mkState saving (hasUnsavedChanges s) (timerRef s) (Some p) true (clock s + dt) []
            (nextTimer s) (saveCalls s ++ [(due, p)]).
Proof.
  intros Hp Hlo Hhi Hproj Hfly. unfold advance. rewrite Hp. simpl.
  rewrite Hp. simpl. apply N.leb_le in Hhi. rewrite Hhi.
  unfold fire, save. rewrite Hp. simpl. rewrite Pos.eqb_refl. simpl.
  rewrite Hproj, Hfly, (N.max_r _ _ Hlo). simpl. rewrite ?Hproj. reflexivity.
Qed.


Lemma advance_nothing_pending (dt : N) (s : State) :
  pending s = [] ->
  advance dt s
  = mkState (saveStatus s) (hasUnsavedChanges s) (timerRef s) (projectRef s)
            (isSavingRef s) (clock s + dt) [] (nextTimer s) (saveCalls s).
Proof. intros Hp. unfold advance. rewrite Hp. simpl. rewrite Hp. reflexivity. Qed.

Lemma save_in_flight (s : State) : isSavingRef s = true -> save s = s.
Proof. intros H. unfold save. rewrite H. destruct (projectRef s); reflexivity. Qed.

(** Every event keeps the pending timeouts within the timer reference,
    which holds when the hook is mounted. *)
Lemma clearTimeout_subset (id : positive) (l : list (positive * N)) (t : positive * N) :
  In t (clearTimeout id l) -> In t l.
Proof. unfold clearTimeout. intros H. apply filter_In in H. tauto. Qed.

Lemma save_keeps_timers (s : State) :
  pending (save s) = pending s /\ timerRef (save s) = timerRef s.
Proof.
  unfold save. destruct (projectRef s); [|tauto].
  destruct (isSavingRef s); simpl; tauto.
Qed.

Lemma runTimers_keeps_timers (fuel : nat) (limit : N) : forall s,
  timerRef (runTimers fuel limit s) = timerRef s
  /\ forall t, In t (pending (runTimers fuel limit s)) -> In t (pending s).
Proof.
  induction fuel as [|k IH]; intros s; simpl; [tauto|].
  destruct (earliest limit (pending s)) as [[id due]|]; [|tauto].
  destruct (IH (fire id due s)) as [Href Hpend].
  unfold fire in *.
  match type of Href with
  | context [save ?st] => destruct (save_keeps_timers st) as [Hp Hr]
  end.
  rewrite Href, Hr. split; [reflexivity|].
  intros t Ht. apply Hpend in Ht. rewrite Hp in Ht. simpl in Ht.
  eapply clearTimeout_subset, Ht.
Qed.

Lemma timersInv_step (o : Options) (s : State) (e : event) :
  timersInv s -> timersInv (step o s e).
Proof.
  intros Hinv. destruct e as [| |ok|dt]; simpl.
  - destruct (enabled o) eqn:He.
    + rewrite (markChanged_single o s He Hinv). intros t [<-|[]]. reflexivity.
    + unfold markChanged. rewrite He. exact Hinv.
  - unfold saveNow. intros t Ht.
    match type of Ht with
    | context [save ?st] => destruct (save_keeps_timers st) as [Hp Hr]
    end.
    rewrite Hp in Ht. rewrite Hr.
    destruct (timerRef s) as [id|] eqn:Hid; [|apply Hinv, Ht].
    simpl in Ht. exfalso.
    rewrite clearTimeout_own in Ht; [destruct Ht|].
    intros t' Ht'. rewrite <- (Hinv t' Ht'). rewrite Hid. reflexivity.
  - unfold saveSettled. destruct ok; exact Hinv.
  - unfold advance. intros t Ht. simpl in *.
    destruct (runTimers_keeps_timers (length (pending s)) (clock s + dt) s) as [Hr Hp].
    rewrite Hr. apply Hinv, Hp, Ht.
Qed.

Lemma timersInv_mounted (p : option Project) (t : N) : timersInv (mounted p t).
Proof. intros x []. Qed.


End AutoSaveFacts.


(** * Further properties *)

(** ** [escapeXml] *)

Lemma escapeChar_cases (c : ascii) :
  (c = "&"%char /\ escapeChar c = "&amp;")
  \/ (c = "<"%char /\ escapeChar c = "&lt;")
  \/ (c = ">"%char /\ escapeChar c = "&gt;")
  \/ (c = dquote /\ escapeChar c = "&quot;")
  \/ (c = "'"%char /\ escapeChar c = "&apos;")
  \/ (reserved c = false /\ escapeChar c = String c "").
Proof.
  unfold escapeChar, reserved.
  destruct (Ascii.eqb c "&") eqn:E1; [left; split; [now apply Ascii.eqb_eq|reflexivity]|].
  destruct (Ascii.eqb c "<") eqn:E2;
    [right; left; split; [now apply Ascii.eqb_eq|reflexivity]|].
  destruct (Ascii.eqb c ">") eqn:E3;
    [do 2 right; left; split; [now apply Ascii.eqb_eq|reflexivity]|].
  destruct (Ascii.eqb c dquote) eqn:E4;
    [do 3 right; left; split; [now apply Ascii.eqb_eq|reflexivity]|].
  destruct (Ascii.eqb c "'") eqn:E5;
    [do 4 right; left; split; [now apply Ascii.eqb_eq|reflexivity]|].
  do 5 right. split; reflexivity.
Qed.

Lemma reserved_amp (c : ascii) : reserved c = false -> c <> "&"%char.
Proof. intros H ->. discriminate H. Qed.

Lemma escapeXml_spec_injective (a : string) : forall b,
  escapeXml_spec a = escapeXml_spec b -> a = b.
Proof.
  induction a as [|c a IH]; intros [|d b] H.
  - reflexivity.
  - exfalso. simpl in H.
    destruct (escapeChar_cases d) as [[_ E]|[[_ E]|[[_ E]|[[_ E]|[[_ E]|[_ E]]]]]];
      rewrite E in H; discriminate H.
  - exfalso. simpl in H.
    destruct (escapeChar_cases c) as [[_ E]|[[_ E]|[[_ E]|[[_ E]|[[_ E]|[_ E]]]]]];
      rewrite E in H; discriminate H.
  - simpl in H.
    destruct (escapeChar_cases c) as [[Hc E]|[[Hc E]|[[Hc E]|[[Hc E]|[[Hc E]|[Hc E]]]]]];
    destruct (escapeChar_cases d) as [[Hd F]|[[Hd F]|[[Hd F]|[[Hd F]|[[Hd F]|[Hd F]]]]]];
      rewrite E, F in H; simpl in H;
      try discriminate H;
      try (subst c d; injection H as H; f_equal; apply IH; exact H);
      try (subst c; injection H as Hd' H; exfalso; apply (reserved_amp d Hd);
           symmetry; exact Hd');
      try (subst d; injection H as Hc' H; exfalso; apply (reserved_amp c Hc); exact Hc').
    injection H as Hcd H. subst d. f_equal. apply IH, H.
Qed.

(** X1: [escapeXml] loses nothing: two texts with the same escape are the
    same text. *)
Theorem escapeXml_injective (a b : string) : escapeXml a = escapeXml b -> a = b.
Proof. rewrite !escapeXml_charwise. apply escapeXml_spec_injective. Qed.

Lemma escapeXml_injective_witness :
  escapeXml "a<b" = escapeXml ("a" +:+ "<b") /\ "a<b" = "a" +:+ "<b".
Proof.
  split; [reflexivity|].
  apply (escapeXml_injective "a<b" ("a" +:+ "<b")). reflexivity.
Defined.

Lemma wellEscaped_plain (c : ascii) (t : string) :
  reserved c = false -> wellEscaped (String c t) = wellEscaped t.
Proof.
  intros H. simpl. unfold reserved, markup in *.
  destruct (Ascii.eqb c "&"); [discriminate H|].
  simpl in H. rewrite H. reflexivity.
Qed.

(** X2: in the text [escapeXml] returns every ampersand starts one of the
    five entities, and no angle bracket, double quote or apostrophe is
    left. *)
Theorem escapeXml_wellEscaped (s : string) : wellEscaped (escapeXml s) = true.
Proof.
  rewrite escapeXml_charwise.
  induction s as [|c s IH]; [reflexivity|]. simpl.
  destruct (escapeChar_cases c) as [[_ E]|[[_ E]|[[_ E]|[[_ E]|[[_ E]|[Hc E]]]]]];
    rewrite E.
  - change (wellEscaped ("&amp;" +:+ escapeXml_spec s))
      with (wellEscaped (escapeXml_spec s)). exact IH.
  - change (wellEscaped ("&lt;" +:+ escapeXml_spec s))
      with (wellEscaped (escapeXml_spec s)). exact IH.
  - change (wellEscaped ("&gt;" +:+ escapeXml_spec s))
      with (wellEscaped (escapeXml_spec s)). exact IH.
  - change (wellEscaped ("&quot;" +:+ escapeXml_spec s))
      with (wellEscaped (escapeXml_spec s)). exact IH.
  - change (wellEscaped ("&apos;" +:+ escapeXml_spec s))
      with (wellEscaped (escapeXml_spec s)). exact IH.
  - change (wellEscaped (String c (escapeXml_spec s)) = true).
    rewrite (wellEscaped_plain c _ Hc). exact IH.
Qed.

Lemma escapeXml_spec_length (s : string) :
  String.length s <= String.length (escapeXml_spec s)
  /\ (noneOf reserved s = false -> String.length s < String.length (escapeXml_spec s)).
Proof.
  induction s as [|c s [IHle IHlt]]; simpl; [split; [lia | discriminate]|].
  rewrite length_append.
  destruct (escapeChar_cases c) as [[Hc E]|[[Hc E]|[[Hc E]|[[Hc E]|[[Hc E]|[Hc E]]]]]];
    rewrite E; simpl; try (split; intros; lia).
  rewrite Hc. simpl. split; [lia|]. intros H. specialize (IHlt H). lia.
Qed.

(** X3: [escapeXml] never shortens a text, and it returns a text unchanged
    exactly when the text has none of the five reserved characters; so a
    text that has one is changed again when it is escaped twice. *)
Theorem escapeXml_fixed_iff (s : string) :
  String.length s <= String.length (escapeXml s)
  /\ (escapeXml s = s <-> noneOf reserved s = true).
Proof.
  destruct (escapeXml_spec_length s) as [Hle Hlt].
  rewrite escapeXml_charwise. split; [exact Hle|]. split.
  - intros Heq. destruct (noneOf reserved s) eqn:E; [reflexivity|].
    specialize (Hlt eq_refl). rewrite Heq in Hlt. lia.
  - intros H. rewrite <- escapeXml_charwise. apply escapeXml_id, H.
Qed.

(** ** The metadata block *)

Lemma countChar_append (c : ascii) (a b : string) :
  countChar c (a +:+ b) = countChar c a + countChar c b.
Proof. induction a as [|x a IH]; simpl; [reflexivity | rewrite IH; lia]. Qed.

Lemma countChar_noneOf (p : ascii -> bool) (c : ascii) (s : string) :
  p c = true -> noneOf p s = true -> countChar c s = 0.
Proof.
  intros Hp. induction s as [|x s IH]; simpl; [reflexivity|].
  intros H. apply andb_true_iff in H as [Hx Hs].
  destruct (Ascii.eqb x c) eqn:E; [|apply IH, Hs].
  apply Ascii.eqb_eq in E. subst x. rewrite Hp in Hx. discriminate Hx.
Qed.

Lemma decimal_fuel_digits (c : ascii) (fuel : nat) : forall n acc,
  (N_of_ascii c < 48 \/ 57 < N_of_ascii c)%N ->
  countChar c (decimal_fuel fuel n acc) = countChar c acc.
Proof.
  induction fuel as [|k IH]; intros n acc Hc; simpl; [reflexivity|].
  assert (Hd : Ascii.eqb (digitChar (n mod 10)) c = false).
  { apply Ascii.eqb_neq. intros <-. unfold digitChar in Hc.
    assert (Hm : (n mod 10 < 10)%N) by (apply N.mod_lt; discriminate).
    clear IH. generalize dependent (n mod 10)%N. intros m Hc Hm.
    rewrite N_ascii_embedding in Hc by lia. lia. }
  destruct (n <? 10)%N; [|rewrite IH by exact Hc]; simpl; rewrite Hd; reflexivity.
Qed.

(** X4: whatever the slide holds, the metadata block has the same tags: its
    numbers of opening and of closing angle brackets do not depend on the
    layout type, the carousel identifier or the slide number. *)
Theorem generateMetadata_tags_fixed (slide : SlideData) :
  countChar "<" (generateMetadata slide) = 19
  /\ countChar ">" (generateMetadata slide) = 19.
Proof.
  unfold generateMetadata.
  assert (Hlt : forall s, countChar "<" (escapeXml s) = 0).
  { intros s. apply (countChar_noneOf markup); [reflexivity|apply escapeXml_no_markup]. }
  assert (Hgt : forall s, countChar ">" (escapeXml s) = 0).
  { intros s. apply (countChar_noneOf markup); [reflexivity|apply escapeXml_no_markup]. }
  assert (Hn1 : forall n, countChar "<" (String_of_N n) = 0).
  { intros n. unfold String_of_N. rewrite decimal_fuel_digits; [reflexivity|].
    right. vm_compute. reflexivity. }
  assert (Hn2 : forall n, countChar ">" (String_of_N n) = 0).
  { intros n. unfold String_of_N. rewrite decimal_fuel_digits; [reflexivity|].
    right. vm_compute. reflexivity. }
  rewrite !countChar_append, !Hlt, !Hgt, !Hn1, !Hn2.
  split; vm_compute; reflexivity.
Qed.

(** ** File names *)





Lemma append_inv_head (a b c : string) : a +:+ b = a +:+ c -> b = c.
Proof. induction a as [|x a IH]; simpl; intros H; [exact H | injection H; auto]. Qed.

Lemma append_inv_tail (c : string) (a : string) : forall b,
  a +:+ c = b +:+ c -> a = b.
Proof.
  induction a as [|x a IH]; intros [|y b] H.
  - reflexivity.
  - exfalso. apply (f_equal String.length) in H.
    simpl in H. rewrite length_append in H. lia.
  - exfalso. apply (f_equal String.length) in H.
    simpl in H. rewrite length_append in H. lia.
  - simpl in H. injection H as -> H. f_equal. apply IH, H.
Qed.


(** X6: within one carousel and one format, slides with different numbers
    get different file names. *)
Theorem generateSlideFilename_distinct_numbers
    (s1 s2 : SlideData) (carouselName : string) (p1 p2 : ExportPreset) (fmt : Format) :
  slide_number s1 <> slide_number s2 ->
  generateSlideFilename s1 carouselName p1 fmt
  <> generateSlideFilename s2 carouselName p2 fmt.
Proof.
  intros Hne Heq. apply Hne. unfold generateSlideFilename in Heq.
  apply append_inv_head, append_inv_head, append_inv_tail in Heq.
  apply (f_equal decimalValue) in Heq. unfold padStart in Heq.
  rewrite !decimalValue_zeros, !decimalValue_String_of_N in Heq.
  injection Heq as Heq. exact Heq.
Qed.

Lemma generateSlideFilename_distinct_numbers_witness :
  slide_number launchSlide <> slide_number (withNumber 12 launchSlide)
  /\ generateSlideFilename launchSlide "Launch" (squarePreset 1080) svg
     <> generateSlideFilename (withNumber 12 launchSlide) "Launch" (squarePreset 1080) svg.
Proof.
  assert (H : slide_number launchSlide <> slide_number (withNumber 12 launchSlide))
    by discriminate.
  split; [exact H|].
  exact (generateSlideFilename_distinct_numbers launchSlide (withNumber 12 launchSlide)
           "Launch" (squarePreset 1080) (squarePreset 1080) svg H).
Defined.

(** ** Custom layouts *)

Lemma find_first {A} (f : A -> bool) (l : list A) (x : A) :
  In x l -> f x = true -> exists y, List.find f l = Some y /\ f y = true /\ In y l.
Proof.
  induction l as [|z l IH]; intros Hin Hx; [contradiction|]. simpl.
  destruct (f z) eqn:E.
  - exists z. split; [reflexivity|]. split; [exact E | now left].
  - destruct Hin as [->|Hin]; [congruence|].
    destruct (IH Hin Hx) as (y & Hy & Hfy & Hiny). exists y. tauto.
Qed.

(** X7: a layout type made of the prefix [custom-] and the identifier of a
    stored layout is rendered by the custom layout path, with the first
    stored layout that has this identifier. *)
Theorem custom_reference_resolves
    (slide : SlideData) (width height : Q) (fonts : FontSettings)
    (layouts : list CustomLayout) (layout : CustomLayout) :
  In layout layouts ->
  layout_type slide = "custom-" +:+ layout_id layout ->
  exists first,
    findLayout (layout_id layout) layouts = Some first
    /\ layout_id first = layout_id layout
    /\ renderLayoutContent_tpl slide width height fonts layouts
       = renderCustomLayout_tpl slide width height fonts first.
Proof.
  intros Hin Hlt.
  destruct (find_first (fun l => String.eqb (layout_id l) (layout_id layout)) layouts
              layout Hin (String.eqb_refl _)) as (first & Hfind & Hid & _).
  exists first. split; [exact Hfind|]. split; [now apply String.eqb_eq|].
  unfold renderLayoutContent_tpl. rewrite Hlt. cbv zeta.
  change (String.eqb ("custom-" +:+ layout_id layout) "dictionary_entry") with false.
  change (String.eqb ("custom-" +:+ layout_id layout) "bold_callout") with false.
  change (String.eqb ("custom-" +:+ layout_id layout) "header_body") with false.
  change (String.eqb ("custom-" +:+ layout_id layout) "quote_highlight") with false.
  change (String.eqb ("custom-" +:+ layout_id layout) "minimalist_focus") with false.
  change (startsWith "custom-" ("custom-" +:+ layout_id layout)) with true.
  change (removeFirst "custom-" ("custom-" +:+ layout_id layout)) with (layout_id layout).
  cbv iota. unfold findLayout in Hfind. unfold findLayout. rewrite Hfind. reflexivity.
Qed.

Lemma custom_reference_resolves_witness :
  In cardLayout [cardLayout]
  /\ layout_type dollarSlide = "custom-" +:+ layout_id cardLayout
  /\ renderLayoutContent_tpl dollarSlide 1080 1080 demoFonts [cardLayout]
     = renderCustomLayout_tpl dollarSlide 1080 1080 demoFonts cardLayout.
Proof.
  assert (Hin : In cardLayout [cardLayout]) by (left; reflexivity).
  split; [exact Hin|]. split; [reflexivity|].
  destruct (custom_reference_resolves dollarSlide 1080 1080 demoFonts [cardLayout]
              cardLayout Hin eq_refl) as (first & Hfind & _ & Hrender).
  injection Hfind as <-. exact Hrender.
Defined.

Lemma startsWith_brace (p s : string) :
  noneOf isBrace s = true -> startsWith (String "{" p) s = false.
Proof.
  destruct s as [|c s]; [reflexivity|]. simpl. intros H.
  apply andb_true_iff in H as [Hc _]. unfold isBrace in Hc.
  rewrite Ascii.eqb_sym. apply negb_true_iff in Hc. rewrite Hc. reflexivity.
Qed.

Lemma replaceAll_from_no_brace (p repl : string) (pre : string) : forall before rest,
  noneOf isBrace pre = true ->
  replaceAll_from (String "{" p) repl before 0 (pre +:+ rest)
  = pre +:+ replaceAll_from (String "{" p) repl (before +:+ pre) 0 rest.
Proof.
  induction pre as [|c pre IH]; intros before rest H.
  - simpl. rewrite append_nil_r. reflexivity.
  - pose proof (startsWith_brace p (String c pre +:+ rest)) as Hs.
    simpl in H. apply andb_true_iff in H as [Hc Hpre].
    change (String c pre +:+ rest) with (String c (pre +:+ rest)) in *.
    cbn [replaceAll_from]. 
    replace (startsWith (String "{" p) (String c (pre +:+ rest))) with false.
    + rewrite (IH _ _ Hpre), append_assoc. reflexivity.
    + symmetry. simpl. unfold isBrace in Hc. rewrite Ascii.eqb_sym.
      apply negb_true_iff in Hc. rewrite Hc. reflexivity.
Qed.

Lemma replaceAll_from_identity (p repl before s : string) :
  noneOf isBrace s = true -> replaceAll_from (String "{" p) repl before 0 s = s.
Proof.
  intros H.
  replace (replaceAll_from (String "{" p) repl before 0 s)
    with (replaceAll_from (String "{" p) repl before 0 (s +:+ ""))
    by (rewrite append_nil_r; reflexivity).
  rewrite (replaceAll_from_no_brace p repl s before "" H). simpl. apply append_nil_r.
Qed.

Lemma replaceAll_no_brace (p repl s : string) :
  noneOf isBrace s = true -> replaceAll (String "{" p) repl s = s.
Proof. apply replaceAll_from_identity. Qed.

Lemma startsWith_append (p x : string) : startsWith p (p +:+ x) = true.
Proof.
  induction p as [|c p IH]; simpl; [reflexivity|].
  rewrite Ascii.eqb_refl, IH. reflexivity.
Qed.

Lemma dropS_append (p x : string) : dropS (String.length p) (p +:+ x) = x.
Proof. induction p as [|c p IH]; simpl; [reflexivity | exact IH]. Qed.

Lemma replaceAll_from_skip (pat repl : string) (x : string) : forall before rest,
  replaceAll_from pat repl before (String.length x) (x +:+ rest)
  = replaceAll_from pat repl (before +:+ x) 0 rest.
Proof.
  induction x as [|c x IH]; intros before rest.
  - simpl. rewrite append_nil_r. reflexivity.
  - simpl. rewrite IH, append_assoc. reflexivity.
Qed.

Lemma replaceAll_from_match (c : ascii) (p repl before rest : string) :
  replaceAll_from (String c p) repl before 0 (String c p +:+ rest)
  = getSubstitution (String c p) before rest repl
    +:+ replaceAll_from (String c p) repl (before +:+ String c p) 0 rest.
Proof.
  change (String c p +:+ rest) with (String c (p +:+ rest)).
  cbn [replaceAll_from].
  change (String c (p +:+ rest)) with (String c p +:+ rest).
  rewrite startsWith_append, dropS_append.
  replace (String.length (String c p) - 1) with (String.length p) by (simpl; lia).
  rewrite replaceAll_from_skip, append_assoc. reflexivity.
Qed.

Lemma noneOf_escapeXml (p : ascii -> bool) (s : string) :
  noneOf p "&amp;" = true -> noneOf p "&lt;" = true -> noneOf p "&gt;" = true ->
  noneOf p "&quot;" = true -> noneOf p "&apos;" = true ->
  noneOf p s = true -> noneOf p (escapeXml s) = true.
Proof.
  intros H1 H2 H3 H4 H5. rewrite escapeXml_charwise.
  induction s as [|c s IH]; [reflexivity|]. intros H. simpl in H.
  apply andb_true_iff in H as [Hc Hs]. simpl. rewrite noneOf_append, (IH Hs), andb_true_r.
  destruct (escapeChar_cases c) as [[_ E]|[[_ E]|[[_ E]|[[_ E]|[[_ E]|[_ E]]]]]];
    rewrite E; try assumption.
  simpl. rewrite Hc. reflexivity.
Qed.

(** X8: a text without dollar sign and without brace is put in place of the
    title placeholder exactly as [escapeXml] returns it, and the rest of a
    template without other braces stays as it is. *)
Theorem customHtml_plain_title
    (slide : SlideData) (fonts : FontSettings) (layout : CustomLayout)
    (pre post : string) :
  htmlTemplate layout = pre +:+ "{{title}}" +:+ post ->
  noneOf isBrace pre = true ->
  noneOf isBrace post = true ->
  noneOf isBrace (orElse (title slide) "") = true ->
  noneOf isDollar (orElse (title slide) "") = true ->
  customHtml slide fonts layout
  = pre +:+ escapeXml (orElse (title slide) "") +:+ post.
Proof.
  intros Htpl Hpre Hpost Hbrace Hdollar. unfold customHtml. rewrite Htpl.
  set (t := escapeXml (orElse (title slide) "")).
  assert (Htb : noneOf isBrace t = true)
    by (apply noneOf_escapeXml; try reflexivity; exact Hbrace).
  assert (Htd : noneOf (Ascii.eqb "$") t = true).
  { replace (noneOf (Ascii.eqb "$") t) with (noneOf isDollar t).
    - apply noneOf_escapeXml; try reflexivity; exact Hdollar.
    - clear. induction t as [|c t IH]; simpl; [reflexivity|].
      unfold isDollar at 1. rewrite IH, Ascii.eqb_sym. reflexivity. }
  assert (Hfirst : replaceAll "{{title}}" t (pre +:+ "{{title}}" +:+ post)
                   = pre +:+ t +:+ post).
  { unfold replaceAll.
    rewrite (replaceAll_from_no_brace _ _ pre _ _ Hpre).
    rewrite replaceAll_from_match, getSubstitution_plain by exact Htd.
    rewrite replaceAll_from_identity by exact Hpost. reflexivity. }
  rewrite Hfirst.
  assert (Hall : noneOf isBrace (pre +:+ t +:+ post) = true)
    by (rewrite !noneOf_append, Hpre, Htb, Hpost; reflexivity).
  do 9 rewrite (replaceAll_no_brace _ _ (pre +:+ t +:+ post) Hall). reflexivity.
Qed.

Lemma customHtml_plain_title_witness :
  htmlTemplate cardLayout = "<h1>" +:+ "{{title}}" +:+ "</h1>"
  /\ noneOf isDollar (orElse (title (withTitle (Some "Q&A <Live>") launchSlide)) "") = true
  /\ customHtml (withTitle (Some "Q&A <Live>") launchSlide) demoFonts cardLayout
     = "<h1>Q&amp;A &lt;Live&gt;</h1>".
Proof.
  split; [reflexivity|]. split; [reflexivity|].
  rewrite (customHtml_plain_title (withTitle (Some "Q&A <Live>") launchSlide) demoFonts
             cardLayout "<h1>" "</h1>"); reflexivity.
Defined.

(** ** Colours *)

Section Colours.
Import Colour.

Lemma hexDigit_bound (c : ascii) (v : N) : hexDigit c = Some v -> (v < 16)%N.
Proof.
  unfold hexDigit.
  destruct ((48 <=? N_of_ascii c) && (N_of_ascii c <=? 57))%N eqn:E1.
  - apply andb_true_iff in E1 as [H1 H2]. apply N.leb_le in H1, H2.
    intros [= <-]. lia.
  - destruct ((97 <=? N_of_ascii c) && (N_of_ascii c <=? 102))%N eqn:E2.
    + apply andb_true_iff in E2 as [H1 H2]. apply N.leb_le in H1, H2.
      intros [= <-]. lia.
    + destruct ((65 <=? N_of_ascii c) && (N_of_ascii c <=? 70))%N eqn:E3;
        [|discriminate].
      apply andb_true_iff in E3 as [H1 H2]. apply N.leb_le in H1, H2.
      intros [= <-]. lia.
Qed.

Lemma parsePair_bound (hi lo : ascii) (v : N) : parsePair hi lo = Some v -> (v <= 255)%N.
Proof.
  unfold parsePair.
  destruct (hexDigit hi) as [h|] eqn:Eh; [|discriminate].
  destruct (hexDigit lo) as [l|] eqn:El; [|discriminate].
  apply hexDigit_bound in Eh, El. intros [= <-]. lia.
Qed.

Lemma hexDigit_lower (c : ascii) :
  hexDigit (if isUpper c then ascii_of_nat (nat_of_ascii c + 32) else c) = hexDigit c.
Proof. destruct c as [[] [] [] [] [] [] [] []]; vm_compute; reflexivity. Qed.

Lemma hash_lower (c : ascii) :
  Ascii.eqb (if isUpper c then ascii_of_nat (nat_of_ascii c + 32) else c) "#"
  = Ascii.eqb c "#".
Proof. destruct c as [[] [] [] [] [] [] [] []]; vm_compute; reflexivity. Qed.

Lemma parsePair_lower (a b : ascii) :
  parsePair (if isUpper a then ascii_of_nat (nat_of_ascii a + 32) else a)
            (if isUpper b then ascii_of_nat (nat_of_ascii b + 32) else b)
  = parsePair a b.
Proof. unfold parsePair. rewrite !hexDigit_lower. reflexivity. Qed.

(** X9: [hexToRgb] gives channels between 0 and 255, only for a text of six
    characters or of seven with a leading hash sign, and it does not tell
    upper from lower case. *)
Theorem hexToRgb_channels (hex : string) :
  hexToRgb (toLowerCase hex) = hexToRgb hex
  /\ forall rgb, hexToRgb hex = Some rgb ->
       (red rgb <= 255 /\ green rgb <= 255 /\ blue rgb <= 255)%N
       /\ (String.length hex = 6
           \/ (String.length hex = 7 /\ startsWith "#" hex = true)).
Proof.
  split.
  - unfold hexToRgb.
    destruct hex as [|c0 hex]; [reflexivity|].
    cbn [toLowerCase]. rewrite hash_lower.
    destruct (Ascii.eqb c0 "#").
    + destruct hex as [|c1 [|c2 [|c3 [|c4 [|c5 [|c6 [|c7 hex]]]]]]];
        cbn [toLowerCase]; rewrite ?parsePair_lower; reflexivity.
    + destruct hex as [|c1 [|c2 [|c3 [|c4 [|c5 [|c6 hex]]]]]];
        cbn [toLowerCase]; rewrite ?parsePair_lower; reflexivity.
  - intros rgb H. unfold hexToRgb in H.
    destruct hex as [|c0 hex]; [discriminate|].
    destruct (Ascii.eqb c0 "#") eqn:Ehash.
    + destruct hex as [|c1 [|c2 [|c3 [|c4 [|c5 [|c6 [|c7 hex]]]]]]]; try discriminate.
      destruct (parsePair c1 c2) as [r|] eqn:Er; [|discriminate].
      destruct (parsePair c3 c4) as [g|] eqn:Eg; [|discriminate].
      destruct (parsePair c5 c6) as [b|] eqn:Eb; [|discriminate].
      injection H as <-. apply parsePair_bound in Er, Eg, Eb.
      split; [simpl; tauto|]. right. split; [reflexivity|].
      simpl. rewrite Ascii.eqb_sym, Ehash. reflexivity.
    + destruct hex as [|c1 [|c2 [|c3 [|c4 [|c5 [|c6 hex]]]]]]; try discriminate.
      destruct (parsePair c0 c1) as [r|] eqn:Er; [|discriminate].
      destruct (parsePair c2 c3) as [g|] eqn:Eg; [|discriminate].
      destruct (parsePair c4 c5) as [b|] eqn:Eb; [|discriminate].
      injection H as <-. apply parsePair_bound in Er, Eg, Eb.
      split; [simpl; tauto|]. left. reflexivity.
Qed.




End Colours.

(** ** The provider: collections *)

Section Collections.
Import LocalStorage Provider.
Local Open Scope list_scope.

Lemma upsert_found {A} (same : A -> bool) (x : A) (l : list A) (i : nat) (y : A) :
  list_find (fun z => same z = true) l = Some (i, y) -> upsert same x l = <[i := x]> l.
Proof. intros H. unfold upsert. rewrite H. reflexivity. Qed.

Lemma upsert_missing {A} (same : A -> bool) (x : A) (l : list A) :
  list_find (fun z => same z = true) l = None -> upsert same x l = l ++ [x].
Proof. intros H. unfold upsert. rewrite H. reflexivity. Qed.

(** X11: the read-modify-write of [saveProject], [saveCustomLayout] and
    [saveCustomFont]: in a collection with distinct identifiers the
    identifiers stay distinct; the saved entity is in the new collection,
    every entity with another identifier stays, and the collection grows
    by one exactly when the identifier is new. *)
Theorem upsert_keeps_distinct_ids {A} (key : A -> string) (x : A) (l : list A) :
  NoDup (map key l) ->
  let l' := upsert (fun y => String.eqb (key y) (key x)) x l in
  NoDup (map key l')
  /\ In x l'
  /\ (forall y, In y l -> key y <> key x -> In y l')
  /\ (In (key x) (map key l) -> length l' = length l)
  /\ (~ In (key x) (map key l) -> length l' = S (length l)).
Proof.
  intros Hnd l'. subst l'.
  destruct (list_find (fun z => String.eqb (key z) (key x) = true) l) as [[i y]|] eqn:Hfind.
  - rewrite (upsert_found _ _ _ _ _ Hfind).
    apply list_find_Some in Hfind as (Hi & Hy & _). apply String.eqb_eq in Hy.
    assert (Hkeys : map key (<[i := x]> l) = map key l).
    { change (key <$> <[i := x]> l = key <$> l).
      rewrite list_fmap_insert. apply list_insert_id.
      rewrite list_lookup_fmap, Hi. simpl. congruence. }
    split; [rewrite Hkeys; exact Hnd|]. split; [|split; [|split]].
    + apply list_elem_of_In, list_elem_of_lookup. exists i.
      apply list_lookup_insert_eq. eapply lookup_lt_Some, Hi.
    + intros z Hz Hne. apply list_elem_of_In in Hz.
      apply list_elem_of_lookup in Hz as [j Hj].
      apply list_elem_of_In, list_elem_of_lookup. exists j.
      rewrite list_lookup_insert_ne; [exact Hj|]. intros ->. congruence.
    + intros _. apply length_insert.
    + intros Hno. exfalso. apply Hno. rewrite <- Hy. apply in_map.
      apply list_elem_of_In, list_elem_of_lookup. eauto.
  - rewrite (upsert_missing _ _ _ Hfind).
    apply list_find_None in Hfind.
    assert (Hfresh : ~ In (key x) (map key l)).
    { intros Hin. apply in_map_iff in Hin as (z & Hz & Hin).
      apply list_elem_of_In in Hin. eapply Forall_forall in Hfind; [|exact Hin].
      apply Hfind. apply String.eqb_eq. exact Hz. }
    split; [|split; [|split; [|split]]].
    + rewrite map_app. simpl. apply NoDup_app. split; [exact Hnd|]. split.
      * intros k Hk Hk2. apply list_elem_of_In in Hk2. destruct Hk2 as [Heq|[]].
        subst k. apply Hfresh, list_elem_of_In, Hk.
      * apply NoDup_singleton.
    + apply in_or_app. right. left. reflexivity.
    + intros z Hz _. apply in_or_app. left. exact Hz.
    + intros Hin. contradiction.
    + intros _. rewrite length_app. simpl. lia.
Qed.

Lemma upsert_keeps_distinct_ids_witness :
  NoDup (map project_id [demoProject; otherProject])
  /\ length (upsert (fun y => String.eqb (project_id y) (project_id demoProject))
               (set_modifiedAt "2024-01-01T00:00:00.000Z" demoProject)
               [demoProject; otherProject]) = 2.
Proof.
  assert (Hnd : NoDup (map project_id [demoProject; otherProject])).
  { simpl. apply NoDup_cons. split.
    - intros H. apply list_elem_of_In in H. simpl in H. destruct H as [H|[]].
      discriminate H.
    - apply NoDup_singleton. }
  split; [exact Hnd|].
  destruct (upsert_keeps_distinct_ids project_id
              (set_modifiedAt "2024-01-01T00:00:00.000Z" demoProject)
              [demoProject; otherProject] Hnd) as (_ & _ & _ & Hsame & _).
  apply Hsame. left. reflexivity.
Defined.

Lemma find_insert_first {A} (f : A -> bool) (x : A) (l : list A) : forall i,
  i < length l ->
  (forall j z, j < i -> l !! j = Some z -> f z = false) ->
  f x = true ->
  List.find f (<[i := x]> l) = Some x.
Proof.
  induction l as [|y l IH]; intros i Hi Hbefore Hx; [simpl in Hi; lia|].
  destruct i as [|i]; simpl.
  - rewrite Hx. reflexivity.
  - rewrite (Hbefore 0 y ltac:(lia) eq_refl).
    apply IH; [simpl in Hi; lia | | exact Hx].
    intros j z Hj Hz. apply (Hbefore (S j) z); [lia | exact Hz].
Qed.

Lemma find_snoc_first {A} (f : A -> bool) (x : A) (l : list A) :
  (forall z, In z l -> f z = false) -> f x = true -> List.find f (l ++ [x]) = Some x.
Proof.
  induction l as [|y l IH]; intros Hl Hx; simpl; [rewrite Hx; reflexivity|].
  rewrite (Hl y (or_introl eq_refl)). apply IH; [|exact Hx].
  intros z Hz. apply Hl. now right.
Qed.

Lemma find_upsert (key : Project -> string) (x : Project) (l : list Project) :
  List.find (fun p => String.eqb (key p) (key x))
            (upsert (fun p => String.eqb (key p) (key x)) x l) = Some x.
Proof.
  destruct (list_find (fun z => String.eqb (key z) (key x) = true) l) as [[i y]|] eqn:Hfind.
  - rewrite (upsert_found _ _ _ _ _ Hfind).
    apply list_find_Some in Hfind as (Hi & _ & Hbefore).
    apply find_insert_first; [eapply lookup_lt_Some, Hi | | apply String.eqb_refl].
    intros j z Hj Hz. specialize (Hbefore j z Hz Hj).
    destruct (String.eqb (key z) (key x)); [contradiction|reflexivity].
  - rewrite (upsert_missing _ _ _ Hfind). apply list_find_None in Hfind.
    apply find_snoc_first; [|apply String.eqb_refl].
    intros z Hz. apply list_elem_of_In in Hz.
    eapply Forall_forall in Hfind; [|exact Hz].
    destruct (String.eqb (key z) (key x)); [contradiction|reflexivity].
Qed.

Lemma readOr_stored {A} `{JSON A} (key text : string) (dflt v : A) (b : Backend) :
  blocked b = false -> items b !! key = Some text -> text <> "" ->
  JSON_parse text = Some v ->
  readOr key dflt b = (b, Ok v).
Proof.
  intros Hb Hi Hne Hp.
  unfold readOr, tryCatch, bind, getItem, parseOrThrow, ret.
  rewrite Hb, Hi. destruct text as [|c text]; [contradiction|].
  simpl. simpl in Hp. rewrite Hp. reflexivity.
Qed.

Context `{JP : JSON (list Project)} `{JL : JSON (list CustomLayout)}
        `{JF : JSON (list CustomFont)} `{JS : JSON FontSettings}
        `{SU : StorageUtils} `{WS : WebStorage}.

(** X12: a project that [saveProject] has written is what [getProject]
    returns for its identifier, with the time of the save as
    [modifiedAt]. *)
Theorem saveProject_then_getProject
    (b b' : Backend) (project : Project) (now : string) (projects : list Project) :
  getAllProjects b = (b, Ok projects) ->
  let rewritten :=
    upsert (fun p => String.eqb (project_id p) (project_id project))
           (set_modifiedAt now project) projects in
  (estimateDataSize rewritten <= total b - used b)%N ->
  safeSetItem PROJECTS (JSON_stringify rewritten) b = (b', Ok tt) ->
  items b' !! PROJECTS = Some (JSON_stringify rewritten) ->
  blocked b' = false ->
  JSON_stringify rewritten <> "" ->
  JSON_parse (JSON_stringify rewritten) = Some rewritten ->
  saveProject project now b = (b', Ok tt)
  /\ getProject (project_id project) b'
     = (b', Ok (Some (set_modifiedAt now project))).
Proof.
  intros Hget rewritten Hfit Hset Hstored Hopen Hne Hrt. split.
  - unfold saveProject, bind. rewrite Hget. simpl.
    fold rewritten. apply N.leb_le in Hfit. rewrite Hfit. simpl.
    unfold tryCatch. rewrite Hset. reflexivity.
  - unfold getProject, bind, getAllProjects.
    rewrite (readOr_stored PROJECTS _ [] rewritten b' Hopen Hstored Hne Hrt).
    unfold ret. do 2 f_equal.
    apply (find_upsert project_id (set_modifiedAt now project) projects).
Qed.

Lemma find_filter_other {A} (f g : A -> bool) (l : list A) :
  (forall x, f x = true -> g x = true) ->
  List.find f (List.filter g l) = List.find f l.
Proof.
  intros Hfg. induction l as [|x l IH]; [reflexivity|]. simpl.
  destruct (g x) eqn:Eg; simpl.
  - rewrite IH. reflexivity.
  - destruct (f x) eqn:Ef; [|exact IH]. rewrite (Hfg x Ef) in Eg. discriminate.
Qed.

Lemma find_filter_self {A} (f : A -> bool) (l : list A) :
  List.find f (List.filter (fun x => negb (f x)) l) = None.
Proof.
  induction l as [|x l IH]; [reflexivity|]. simpl.
  destruct (f x) eqn:E; simpl; [exact IH | rewrite E; exact IH].
Qed.

(** X13: after [deleteProject] has written, [getProject] finds no project
    with the deleted identifier, and finds for every other identifier what
    it found before. *)
Theorem deleteProject_then_getProject
    (b b' : Backend) (id : string) (projects : list Project) :
  getAllProjects b = (b, Ok projects) ->
  let filtered := List.filter (fun p => negb (sameProject id p)) projects in
  setItem PROJECTS (JSON_stringify filtered) b = (b', Ok tt) ->
  items b' !! PROJECTS = Some (JSON_stringify filtered) ->
  blocked b' = false ->
  JSON_stringify filtered <> "" ->
  JSON_parse (JSON_stringify filtered) = Some filtered ->
  deleteProject id b = (b', Ok tt)
  /\ getProject id b' = (b', Ok None)
  /\ forall other, other <> id ->
       getProject other b' = (b', Ok (List.find (sameProject other) projects)).
Proof.
  intros Hget filtered Hset Hstored Hopen Hne Hrt.
  assert (Hread : getAllProjects b' = (b', Ok filtered))
    by (apply (readOr_stored PROJECTS _ [] filtered b' Hopen Hstored Hne Hrt)).
  split; [|split].
  - unfold deleteProject, bind. rewrite Hget. fold filtered.
    unfold tryCatch. rewrite Hset. reflexivity.
  - unfold getProject, bind. rewrite Hread. unfold ret. do 2 f_equal.
    apply find_filter_self.
  - intros other Hother. unfold getProject, bind. rewrite Hread. unfold ret.
    do 2 f_equal. apply find_filter_other. intros p Hp. unfold sameProject in *.
    apply String.eqb_eq in Hp. apply negb_true_iff, String.eqb_neq. congruence.
Qed.

End Collections.

Lemma saveProject_then_getProject_witness :
  @LocalStorage.getAllProjects projectsJSON emptyStore = (emptyStore, LocalStorage.Ok [])
  /\ @LocalStorage.JSON_parse _ projectsJSON (writeProjects [savedDemo]) = Some [savedDemo]
  /\ @Provider.getProject projectsJSON "project-1700000000000"
       (storedBackend (writeProjects [savedDemo]))
     = (storedBackend (writeProjects [savedDemo]), LocalStorage.Ok (Some savedDemo)).
Proof.
  split; [reflexivity|]. split; [reflexivity|].
  refine (proj2 (saveProject_then_getProject (JP := projectsJSON) (SU := plainUtils)
                   emptyStore (storedBackend (writeProjects [savedDemo])) demoProject
                   "2024-01-01T00:00:00.000Z" [] eq_refl _ eq_refl eq_refl eq_refl _
                   eq_refl)).
  - vm_compute. discriminate.
  - discriminate.
Defined.

Lemma deleteProject_then_getProject_witness :
  @LocalStorage.getAllProjects projectsJSON
     (storedBackend (writeProjects [demoProject; otherProject]))
  = (storedBackend (writeProjects [demoProject; otherProject]),
     LocalStorage.Ok [demoProject; otherProject])
  /\ @Provider.getProject projectsJSON "project-1700000000000"
       (storedBackend (writeProjects [otherProject]))
     = (storedBackend (writeProjects [otherProject]), LocalStorage.Ok None)
  /\ @Provider.getProject projectsJSON "project-1700000000001"
       (storedBackend (writeProjects [otherProject]))
     = (storedBackend (writeProjects [otherProject]), LocalStorage.Ok (Some otherProject)).
Proof.
  split; [reflexivity|].
  destruct (deleteProject_then_getProject (JP := projectsJSON) (WS := plainWeb)
              (storedBackend (writeProjects [demoProject; otherProject]))
              (storedBackend (writeProjects [otherProject]))
              "project-1700000000000" [demoProject; otherProject]
              eq_refl eq_refl eq_refl eq_refl ltac:(discriminate) eq_refl)
    as (_ & Hgone & Hother).
  split; [exact Hgone|]. apply Hother. discriminate.
Defined.

(** ** The provider: duplicates, listing, Google fonts *)

Section Composite.
Import LocalStorage Provider.
Local Open Scope list_scope.
Context `{JP : JSON (list Project)} `{JS : JSON FontSettings}
        `{SU : StorageUtils} `{WS : WebStorage}.

Lemma find_sameProject (id : string) (l : list Project) (p : Project) :
  List.find (sameProject id) l = Some p -> In p l /\ project_id p = id.
Proof.
  intros H. apply find_some in H as [Hin Hid]. split; [exact Hin|].
  apply String.eqb_eq. exact Hid.
Qed.

Lemma longer_differs (a b : string) : b <> "" -> a +:+ b <> a.
Proof.
  intros Hb Heq. apply (f_equal String.length) in Heq.
  rewrite length_append in Heq. destruct b; [contradiction|]. simpl in Heq. lia.
Qed.

(** X14: [duplicateProject] writes a collection that still holds the source
    project and also holds the copy, whose identifier differs from the
    source's; the copy has the carousels of the source, [ (Copy)] after its
    name, and, as returned, the time of the save as [modifiedAt]. *)
Theorem duplicateProject_keeps_source
    (b b' : Backend) (id : string) (nowMs : N) (created modified saved : string)
    (projects : list Project) (source : Project) :
  getAllProjects b = (b, Ok projects) ->
  List.find (sameProject id) projects = Some source ->
  let copy := set_modifiedAt saved (duplicateOf source nowMs created modified) in
  let rewritten :=
    upsert (fun p => String.eqb (project_id p) (project_id copy)) copy projects in
  (estimateDataSize rewritten <= total b - used b)%N ->
  safeSetItem PROJECTS (JSON_stringify rewritten) b = (b', Ok tt) ->
  duplicateProject id nowMs created modified saved b = (b', Ok copy)
  /\ In source rewritten
  /\ In copy rewritten
  /\ project_id copy <> project_id source
  /\ carousels copy = carousels source
  /\ project_name copy = project_name source +:+ " (Copy)".
Proof.
  intros Hget Hfind copy rewritten Hfit Hset.
  destruct (find_sameProject _ _ _ Hfind) as [Hin Hid].
  assert (Hne : project_id copy <> project_id source).
  { simpl. apply longer_differs. discriminate. }
  split; [|split; [|split; [|split; [|split]]]]; try reflexivity; try exact Hne.
  - unfold duplicateProject, bind, getProject, bind. rewrite Hget. unfold ret.
    rewrite Hfind. unfold saveProject, bind. rewrite Hget. simpl.
    fold copy. change (upsert _ copy projects) with rewritten.
    apply N.leb_le in Hfit. rewrite Hfit. simpl.
    unfold tryCatch. rewrite Hset. reflexivity.
  - unfold rewritten, upsert.
    destruct (list_find _ projects) as [[i y]|] eqn:Hlf.
    + apply list_find_Some in Hlf as (Hi & Hy & _). apply String.eqb_eq in Hy.
      apply list_elem_of_In in Hin. apply list_elem_of_lookup in Hin as [j Hj].
      apply list_elem_of_In, list_elem_of_lookup. exists j.
      rewrite list_lookup_insert_ne; [exact Hj|]. intros ->. congruence.
    + apply in_or_app. left. exact Hin.
  - unfold rewritten, upsert.
    destruct (list_find _ projects) as [[i y]|] eqn:Hlf.
    + apply list_find_Some in Hlf as (Hi & _). 
      apply list_elem_of_In, list_elem_of_lookup. exists i.
      apply list_lookup_insert_eq. eapply lookup_lt_Some, Hi.
    + apply in_or_app. right. left. reflexivity.
Qed.

Lemma countSlides_from (cs : list Carousel) : forall n,
  fold_left (fun sum c => sum + length (slides c)) cs n
  = n + length (concat (map slides cs)).
Proof.
  induction cs as [|c cs IH]; intros n; simpl; [lia|].
  rewrite IH, length_app. lia.
Qed.

(** X15: [getProjectMetadata] lists one summary per stored project, in the
    stored order, and the slide count of a summary is the number of slides
    of all carousels of its project together. *)
Theorem getProjectMetadata_counts (b : Backend) (projects : list Project) :
  getAllProjects b = (b, Ok projects) ->
  exists metas,
    getProjectMetadata b = (b, Ok metas)
    /\ map meta_id metas = map project_id projects
    /\ Forall2 (fun p m =>
                  slideCount m = length (concat (map slides (carousels p)))
                  /\ carouselCount m = length (carousels p))
               projects metas.
Proof.
  intros Hget. exists (map metadataOf projects).
  unfold getProjectMetadata, bind. rewrite Hget. split; [reflexivity|]. split.
  - rewrite map_map. reflexivity.
  - clear Hget. induction projects as [|p ps IH]; simpl; constructor; [|exact IH].
    split; [|reflexivity]. simpl. unfold countSlides. apply countSlides_from.
Qed.

End Composite.

Lemma duplicateProject_keeps_source_witness :
  @LocalStorage.getAllProjects duplicatesJSON (storedBackend (writeProjects [otherProject]))
  = (storedBackend (writeProjects [otherProject]), LocalStorage.Ok [otherProject])
  /\ @Provider.duplicateProject duplicatesJSON plainUtils "project-1700000000001"
       1706832000000 "2024-02-02T00:00:00.000Z" "2024-02-02T00:00:01.000Z"
       "2024-02-02T00:00:02.000Z" (storedBackend (writeProjects [otherProject]))
     = (storedBackend (writeProjects [otherProject; copyOfOther]),
        LocalStorage.Ok copyOfOther).
Proof.
  split; [reflexivity|].
  refine (proj1 (duplicateProject_keeps_source (JP := duplicatesJSON) (SU := plainUtils)
                   (storedBackend (writeProjects [otherProject]))
                   (storedBackend (writeProjects [otherProject; copyOfOther]))
                   "project-1700000000001" 1706832000000 "2024-02-02T00:00:00.000Z"
                   "2024-02-02T00:00:01.000Z" "2024-02-02T00:00:02.000Z"
                   [otherProject] otherProject eq_refl eq_refl _ eq_refl)).
  vm_compute. discriminate.
Defined.

Lemma getProjectMetadata_counts_witness :
  @LocalStorage.getAllProjects duplicatesJSON (storedBackend (writeProjects [otherProject]))
  = (storedBackend (writeProjects [otherProject]), LocalStorage.Ok [otherProject])
  /\ exists metas,
       @Provider.getProjectMetadata duplicatesJSON
         (storedBackend (writeProjects [otherProject]))
       = (storedBackend (writeProjects [otherProject]), LocalStorage.Ok metas)
       /\ map Provider.slideCount metas = [3].
Proof.
  split; [reflexivity|].
  destruct (getProjectMetadata_counts (JP := duplicatesJSON)
              (storedBackend (writeProjects [otherProject])) [otherProject] eq_refl)
    as (metas & Hm & _ & Hall).
  exists metas. split; [exact Hm|].
  inversion Hall as [|p m ps ms [Hcount _] Hrest]; subst.
  inversion Hrest; subst. simpl. rewrite Hcount. reflexivity.
Defined.

(** ** The provider: the list of Google fonts *)

Section GoogleFonts.
Import LocalStorage Provider.
Local Open Scope list_scope.
Context `{JS : JSON FontSettings} `{SU : StorageUtils}.

Lemma getFontSettingsRef_stored (w : World) (text : string) (settings : FontSettings) :
  blocked (backend w) = false ->
  items (backend w) !! FONT_SETTINGS = Some text ->
  text <> "" ->
  JSON_parse text = Some settings ->
  getFontSettingsRef w = (w, Ok (Parsed settings)).
Proof.
  intros Hb Hi Hne Hp. destruct w as [b d]. simpl in *.
  unfold getFontSettingsRef, liftW, tryCatch, bind, getItem, parseOrThrow, ret. simpl.
  rewrite Hb, Hi. destruct text as [|c text]; [contradiction|].
  simpl. simpl in Hp. rewrite Hp. reflexivity.
Qed.

Lemma getFontSettingsRef_absent (w : World) :
  blocked (backend w) = false ->
  items (backend w) !! FONT_SETTINGS = None ->
  getFontSettingsRef w = (w, Ok TheDefault).
Proof.
  intros Hb Hi. destruct w as [b d]. simpl in *.
  unfold getFontSettingsRef, liftW, tryCatch, bind, getItem, ret. simpl.
  rewrite Hb, Hi. reflexivity.
Qed.

Lemma assign_then_save (w : World) (r : SettingsRef) (fonts : list string)
    (b' : Backend) (outcome : result unit) :
  safeSetItem FONT_SETTINGS (JSON_stringify (set_googleFonts fonts (deref w r))) (backend w)
    = (b', outcome) ->
  bindW (assignGoogleFonts r fonts)
        (fun r' => fun w' => liftW (saveFontSettings (deref w' r')) w') w
  = (afterAssign w r fonts b',
     match outcome with
     | Ok _ => Ok tt
     | Throw _ => Throw (Error "Failed to save font settings")
     end).
Proof.
  intros Hset. destruct w as [b d]. simpl in Hset.
  unfold bindW, assignGoogleFonts, liftW, saveFontSettings, tryCatch, throw.
  destruct r as [|settings]; simpl in *; unfold theDefault, set_googleFonts in *;
    simpl in *; rewrite Hset; destruct outcome as [[]|e]; reflexivity.
Qed.

Lemma read_after_write (w : World) (r : SettingsRef) (fonts : list string)
    (b' : Backend) (settings' : FontSettings) :
  items b' !! FONT_SETTINGS = Some (JSON_stringify settings') ->
  blocked b' = false ->
  JSON_stringify settings' <> "" ->
  JSON_parse (JSON_stringify settings') = Some settings' ->
  getFontSettingsRef (afterAssign w r fonts b')
  = (afterAssign w r fonts b', Ok (Parsed settings')).
Proof.
  intros Hi Hb Hne Hp.
  apply (getFontSettingsRef_stored _ (JSON_stringify settings'));
    destruct r; simpl; assumption.
Qed.

Lemma has_snoc (l : list string) (x : string) : has (l ++ [x]) x = true.
Proof.
  unfold has. rewrite existsb_app. simpl. rewrite String.eqb_refl.
  rewrite orb_true_r. reflexivity.
Qed.

(** X16: after [addGoogleFont] has written, [getFontSettings] returns the
    settings with the family at the end of the list of Google fonts, and
    adding the same family again changes nothing. *)
Theorem addGoogleFont_then_read
    (w : World) (r : SettingsRef) (family : string) (b' : Backend) :
  getFontSettingsRef w = (w, Ok r) ->
  has (googleFonts (deref w r)) family = false ->
  let settings' := set_googleFonts (googleFonts (deref w r) ++ [family]) (deref w r) in
  safeSetItem FONT_SETTINGS (JSON_stringify settings') (backend w) = (b', Ok tt) ->
  items b' !! FONT_SETTINGS = Some (JSON_stringify settings') ->
  blocked b' = false ->
  JSON_stringify settings' <> "" ->
  JSON_parse (JSON_stringify settings') = Some settings' ->
  let w' := fst (addGoogleFont family w) in
  addGoogleFont family w = (w', Ok tt)
  /\ backend w' = b'
  /\ getFontSettingsW w' = (w', Ok settings')
  /\ addGoogleFont family w' = (w', Ok tt).
Proof.
  intros Hread Hnew settings' Hset Hi Hb Hne Hp w'.
  assert (Hadd : addGoogleFont family w
                 = (afterAssign w r (googleFonts (deref w r) ++ [family]) b', Ok tt)).
  { unfold addGoogleFont, bindW at 1. rewrite Hread, Hnew.
    apply (assign_then_save w r _ b' (Ok tt) Hset). }
  subst w'. rewrite Hadd. simpl fst.
  pose proof (read_after_write w r (googleFonts (deref w r) ++ [family]) b' settings'
                Hi Hb Hne Hp) as Hread'.
  split; [reflexivity|]. split; [destruct r; reflexivity|]. split.
  - unfold getFontSettingsW, bindW. rewrite Hread'. reflexivity.
  - unfold addGoogleFont, bindW at 1. rewrite Hread'. simpl deref.
    unfold settings'. simpl googleFonts. rewrite has_snoc. reflexivity.
Qed.

(** X17: with no settings stored, [addGoogleFont] changes the default
    settings object itself: when the write fails the method rejects and
    the backend is as before, yet from then on [getFontSettings] returns
    default settings that list the family. *)
Theorem addGoogleFont_changes_default
    (w : World) (family : string) (failure : exn) :
  blocked (backend w) = false ->
  items (backend w) !! FONT_SETTINGS = None ->
  has (defaultGoogleFonts w) family = false ->
  let settings' := set_googleFonts (defaultGoogleFonts w ++ [family]) (theDefault w) in
  safeSetItem FONT_SETTINGS (JSON_stringify settings') (backend w)
    = (backend w, Throw failure) ->
  let w' := fst (addGoogleFont family w) in
  addGoogleFont family w = (w', Throw (Error "Failed to save font settings"))
  /\ backend w' = backend w
  /\ getFontSettingsW w = (w, Ok (theDefault w))
  /\ getFontSettingsW w' = (w', Ok settings')
  /\ has (googleFonts settings') family = true.
Proof.
  intros Hb Hi Hnew settings' Hset w'.
  pose proof (getFontSettingsRef_absent w Hb Hi) as Hread.
  assert (Hadd : addGoogleFont family w
                 = (mkWorld (backend w) (defaultGoogleFonts w ++ [family]),
                    Throw (Error "Failed to save font settings"))).
  { unfold addGoogleFont, bindW at 1. rewrite Hread. simpl deref.
    simpl googleFonts. rewrite Hnew.
    apply (assign_then_save w TheDefault _ (backend w) (Throw failure) Hset). }
  subst w'. rewrite Hadd. simpl fst.
  split; [reflexivity|]. split; [reflexivity|]. split; [|split].
  - unfold getFontSettingsW, bindW. rewrite Hread. reflexivity.
  - unfold getFontSettingsW, bindW.
    rewrite (getFontSettingsRef_absent (mkWorld (backend w) _) Hb Hi). reflexivity.
  - apply has_snoc.
Qed.

Lemma has_filter_out (l : list string) (x : string) :
  has (List.filter (fun f => negb (String.eqb f x)) l) x = false.
Proof.
  unfold has. induction l as [|y l IH]; [reflexivity|]. simpl.
  destruct (String.eqb y x) eqn:E; simpl; [exact IH|].
  rewrite String.eqb_sym, E. exact IH.
Qed.

Lemma has_filter_other (l : list string) (x y : string) :
  y <> x -> has (List.filter (fun f => negb (String.eqb f x)) l) y = has l y.
Proof.
  intros Hne. unfold has. induction l as [|z l IH]; [reflexivity|]. simpl.
  destruct (String.eqb z x) eqn:E; simpl.
  - apply String.eqb_eq in E. subst z.
    replace (String.eqb y x) with false by (symmetry; now apply String.eqb_neq).
    exact IH.
  - rewrite IH. reflexivity.
Qed.

(** X18: after [removeGoogleFont] has written, the settings that
    [getFontSettings] returns no longer list the family, and list every
    other family exactly if they listed it before. *)
Theorem removeGoogleFont_then_read
    (w : World) (r : SettingsRef) (family : string) (b' : Backend) :
  getFontSettingsRef w = (w, Ok r) ->
  let settings' :=
    set_googleFonts
      (List.filter (fun f => negb (String.eqb f family)) (googleFonts (deref w r)))
      (deref w r) in
  safeSetItem FONT_SETTINGS (JSON_stringify settings') (backend w) = (b', Ok tt) ->
  items b' !! FONT_SETTINGS = Some (JSON_stringify settings') ->
  blocked b' = false ->
  JSON_stringify settings' <> "" ->
  JSON_parse (JSON_stringify settings') = Some settings' ->
  let w' := fst (removeGoogleFont family w) in
  removeGoogleFont family w = (w', Ok tt)
  /\ getFontSettingsW w' = (w', Ok settings')
  /\ has (googleFonts settings') family = false
  /\ forall other, other <> family ->
       has (googleFonts settings') other = has (googleFonts (deref w r)) other.
Proof.
  intros Hread settings' Hset Hi Hb Hne Hp w'.
  assert (Hrm : removeGoogleFont family w
                = (afterAssign w r
                     (List.filter (fun f => negb (String.eqb f family))
                                  (googleFonts (deref w r))) b', Ok tt)).
  { unfold removeGoogleFont, bindW at 1. rewrite Hread.
    apply (assign_then_save w r _ b' (Ok tt) Hset). }
  subst w'. rewrite Hrm. simpl fst.
  split; [reflexivity|]. split; [|split].
  - unfold getFontSettingsW, bindW.
    rewrite (read_after_write w r _ b' settings' Hi Hb Hne Hp). reflexivity.
  - apply has_filter_out.
  - intros other Hother. apply has_filter_other, Hother.
Qed.

End GoogleFonts.

Lemma addGoogleFont_then_read_witness :
  @Provider.getFontSettingsRef (settingsKnownJSON [withInter]) freshWorld
  = (freshWorld, LocalStorage.Ok Provider.TheDefault)
  /\ @Provider.getFontSettingsW (settingsKnownJSON [withInter])
       (Provider.mkWorld (settingsBackend withInter) ["Inter"])
     = (Provider.mkWorld (settingsBackend withInter) ["Inter"], LocalStorage.Ok withInter).
Proof.
  split; [reflexivity|].
  destruct (addGoogleFont_then_read (JS := settingsKnownJSON [withInter]) (SU := plainUtils)
              freshWorld Provider.TheDefault "Inter" (settingsBackend withInter)
              eq_refl eq_refl eq_refl eq_refl eq_refl ltac:(discriminate) eq_refl)
    as (_ & _ & Hread & _).
  exact Hread.
Defined.

Lemma addGoogleFont_changes_default_witness :
  @Provider.getFontSettingsW (settingsKnownJSON []) freshWorld
  = (freshWorld, LocalStorage.Ok LocalStorage.DEFAULT_FONT_SETTINGS_VALUE)
  /\ @Provider.getFontSettingsW (settingsKnownJSON [])
       (fst (@Provider.addGoogleFont (settingsKnownJSON []) refusingUtils "Inter" freshWorld))
     = (Provider.mkWorld emptyStore ["Inter"], LocalStorage.Ok withInter).
Proof.
  split; [reflexivity|].
  destruct (addGoogleFont_changes_default (JS := settingsKnownJSON []) (SU := refusingUtils)
              freshWorld "Inter" (LocalStorage.Error "QuotaExceededError")
              eq_refl eq_refl eq_refl eq_refl)
    as (_ & _ & _ & Hafter & _).
  exact Hafter.
Defined.

Lemma removeGoogleFont_then_read_witness :
  @Provider.getFontSettingsRef (settingsKnownJSON [withInter; LocalStorage.DEFAULT_FONT_SETTINGS_VALUE])
     (Provider.mkWorld (settingsBackend withInter) [])
  = (Provider.mkWorld (settingsBackend withInter) [], LocalStorage.Ok (Provider.Parsed withInter))
  /\ @Provider.getFontSettingsW
       (settingsKnownJSON [withInter; LocalStorage.DEFAULT_FONT_SETTINGS_VALUE])
       (Provider.mkWorld (settingsBackend LocalStorage.DEFAULT_FONT_SETTINGS_VALUE) [])
     = (Provider.mkWorld (settingsBackend LocalStorage.DEFAULT_FONT_SETTINGS_VALUE) [],
        LocalStorage.Ok LocalStorage.DEFAULT_FONT_SETTINGS_VALUE).
Proof.
  split; [reflexivity|].
  destruct (removeGoogleFont_then_read
              (JS := settingsKnownJSON [withInter; LocalStorage.DEFAULT_FONT_SETTINGS_VALUE])
              (SU := plainUtils)
              (Provider.mkWorld (settingsBackend withInter) []) (Provider.Parsed withInter)
              "Inter" (settingsBackend LocalStorage.DEFAULT_FONT_SETTINGS_VALUE)
              eq_refl eq_refl eq_refl eq_refl ltac:(discriminate) eq_refl)
    as (_ & Hread & _).
  exact Hread.
Defined.

(** ** The autosave hook with its effect cleanup *)

Section HookFacts.
Import LocalStorage AutoSave AutoSaveEffects.
Local Open Scope N_scope.

Lemma cleanup_own (seen : bool) (s : State) :
  timersInv s -> pending (cleanup seen s) = [].
Proof.
  intros Hinv. unfold cleanup. simpl. unfold timersInv in Hinv.
  destruct (timerRef s) as [id|] eqn:Hid.
  - apply clearTimeout_own. intros t Ht. rewrite <- (Hinv t Ht). reflexivity.
  - destruct (pending s) as [|t l]; [reflexivity|].
    specialize (Hinv t (or_introl eq_refl)). discriminate.
Qed.

(** X19: the first change after a saved state never saves by itself: the
    commit that follows the mark runs the effect cleanup, which clears the
    timeout the mark has just set, so no time that passes calls the
    provider; a second mark after that commit sets a timeout that stays and
    saves when the delay has passed. *)
Theorem first_change_timer_cancelled
    (o : Options) (h : Hook) (p : Project) (d : N) :
  enabled o = true ->
  timersInv (inner h) ->
  hasUnsavedChanges (inner h) = false ->
  seenUnsaved h = false ->
  projectRef (inner h) = Some p ->
  isSavingRef (inner h) = false ->
  let once := hookRun o h [Event MarkChanged; Commit; Event (Advance d)] in
  let twice := hookRun o h [Event MarkChanged; Commit; Event MarkChanged; Commit;
                            Event (Advance (delay o))] in
  saveCalls (inner once) = saveCalls (inner h)
  /\ pending (inner once) = []
  /\ hasUnsavedChanges (inner once) = true
  /\ saveCalls (inner twice) = (saveCalls (inner h) ++ [(clock (inner h) + delay o, p)])%list.
Proof.
  intros He Hinv Hclean Hseen Hp Hfly once twice.
  assert (Hcommit : commit (mkHook (markChanged o (inner h)) (seenUnsaved h))
                    = mkHook (mkState unsaved true (Some (nextTimer (inner h)))
                                (projectRef (inner h)) (isSavingRef (inner h))
                                (clock (inner h)) [] (Pos.succ (nextTimer (inner h)))
                                (saveCalls (inner h))) true).
  { rewrite (markChanged_single o _ He Hinv), Hseen. unfold commit. simpl.
    unfold cleanup. simpl. rewrite Pos.eqb_refl. simpl.
    rewrite Hp. reflexivity. }
  split; [|split; [|split]].
  - unfold once, hookRun. cbn [fold_left hookStep step inner seenUnsaved].
    rewrite Hcommit. cbn [inner]. rewrite advance_nothing_pending by reflexivity.
    reflexivity.
  - unfold once, hookRun. cbn [fold_left hookStep step inner seenUnsaved].
    rewrite Hcommit. cbn [inner]. rewrite advance_nothing_pending by reflexivity.
    reflexivity.
  - unfold once, hookRun. cbn [fold_left hookStep step inner seenUnsaved].
    rewrite Hcommit. cbn [inner]. rewrite advance_nothing_pending by reflexivity.
    reflexivity.
  - unfold twice, hookRun. cbn [fold_left hookStep step inner seenUnsaved].
    rewrite Hcommit. cbn [inner seenUnsaved].
    rewrite markChanged_single; [|exact He|intros t []].
    unfold commit at 1. cbn [inner seenUnsaved hasUnsavedChanges Bool.eqb].
    cbn [inner].
    match goal with
    | |- context [advance (delay o) ?st] =>
        rewrite (advance_fire_saves (delay o) st (Pos.succ (nextTimer (inner h)))
                   (clock (inner h) + delay o) p eq_refl)
          by (cbn [clock projectRef isSavingRef]; first [lia | assumption])
    end.
    reflexivity.
Qed.

Lemma first_change_timer_cancelled_witness :
  timersInv (inner (hookMounted (Some demoProject) 0))
  /\ saveCalls (inner (hookRun demoOptions (hookMounted (Some demoProject) 0)
                         [Event MarkChanged; Commit; Event (Advance 60000)])) = []
  /\ saveCalls (inner (hookRun demoOptions (hookMounted (Some demoProject) 0)
                         [Event MarkChanged; Commit; Event MarkChanged; Commit;
                          Event (Advance 2000)])) = [(2000, demoProject)].
Proof.
  assert (Hinv : timersInv (inner (hookMounted (Some demoProject) 0))) by (intros t []).
  split; [exact Hinv|].
  destruct (first_change_timer_cancelled demoOptions (hookMounted (Some demoProject) 0)
              demoProject 60000 eq_refl Hinv eq_refl eq_refl eq_refl eq_refl)
    as (Hone & _ & _ & Htwo).
  split; [exact Hone | exact Htwo].
Defined.

(** X20: when a save has succeeded, the commit that follows runs the effect
    cleanup with unsaved changes seen: the provider is called a second time
    for the same project, outside [save] and its in-flight flag, while the
    status already says saved. *)
Theorem settled_save_repeats (o : Options) (h : Hook) (p : Project) :
  hasUnsavedChanges (inner h) = true ->
  seenUnsaved h = true ->
  projectRef (inner h) = Some p ->
  let h' := hookRun o h [Event (Settled true); Commit] in
  saveCalls (inner h') = (saveCalls (inner h) ++ [(clock (inner h), p)])%list
  /\ saveStatus (inner h') = saved
  /\ hasUnsavedChanges (inner h') = false
  /\ seenUnsaved h' = false.
Proof.
  intros Hu Hseen Hp h'. subst h'. unfold hookRun.
  cbn [fold_left hookStep step]. unfold saveSettled, commit.
  cbn [inner seenUnsaved hasUnsavedChanges]. rewrite Hseen.
  cbn [Bool.eqb inner]. unfold cleanup. cbn [projectRef saveCalls clock inner
    saveStatus hasUnsavedChanges seenUnsaved]. rewrite Hp. tauto.
Qed.

Lemma settled_save_repeats_witness :
  saveCalls (inner (hookRun demoOptions (hookMounted (Some demoProject) 0)
                      [Event MarkChanged; Commit; Event MarkChanged;
                       Event (Advance 2000); Event (Settled true); Commit]))
  = [(2000, demoProject); (2000, demoProject)].
Proof.
  change (hookRun demoOptions (hookMounted (Some demoProject) 0)
            [Event MarkChanged; Commit; Event MarkChanged;
             Event (Advance 2000); Event (Settled true); Commit])
    with (hookRun demoOptions
            (hookRun demoOptions (hookMounted (Some demoProject) 0)
               [Event MarkChanged; Commit; Event MarkChanged; Event (Advance 2000)])
            [Event (Settled true); Commit]).
  rewrite (proj1 (settled_save_repeats demoOptions
                    (hookRun demoOptions (hookMounted (Some demoProject) 0)
                       [Event MarkChanged; Commit; Event MarkChanged; Event (Advance 2000)])
                    demoProject eq_refl eq_refl eq_refl)).
  reflexivity.
Defined.

Lemma runTimers_in_flight (fuel : nat) (limit : N) : forall s,
  isSavingRef s = true ->
  saveCalls (runTimers fuel limit s) = saveCalls s
  /\ isSavingRef (runTimers fuel limit s) = true.
Proof.
  induction fuel as [|k IH]; intros s Hs; simpl; [tauto|].
  destruct (earliest limit (pending s)) as [[id due]|]; [|tauto].
  unfold fire. rewrite save_in_flight by exact Hs.
  match goal with
  | |- context [runTimers k limit ?st] => destruct (IH st Hs) as [Hc Hf]
  end.
  rewrite Hc, Hf. tauto.
Qed.

(** X21: while a save is in flight neither a mark, nor a manual save, nor
    any timeout that falls due calls the provider; the flag stays up until
    the save settles. *)
Theorem in_flight_blocks_saves (o : Options) (s : State) (e : event) :
  isSavingRef s = true ->
  (forall ok, e <> Settled ok) ->
  saveCalls (step o s e) = saveCalls s /\ isSavingRef (step o s e) = true.
Proof.
  intros Hs Hne. destruct e as [| |ok|dt]; simpl.
  - unfold markChanged. destruct (enabled o); simpl; tauto.
  - unfold saveNow. rewrite save_in_flight by (destruct (timerRef s); exact Hs).
    destruct (timerRef s); simpl; tauto.
  - exfalso. exact (Hne ok eq_refl).
  - unfold advance. simpl. apply runTimers_in_flight, Hs.
Qed.

Lemma in_flight_blocks_saves_witness :
  isSavingRef (run demoOptions (mounted (Some demoProject) 0)
                 [MarkChanged; Advance 2000]) = true
  /\ saveCalls (run demoOptions (mounted (Some demoProject) 0)
                  [MarkChanged; Advance 2000; SaveNow])
     = [(2000, demoProject)].
Proof.
  split; [reflexivity|].
  change (run demoOptions (mounted (Some demoProject) 0) [MarkChanged; Advance 2000; SaveNow])
    with (step demoOptions
            (run demoOptions (mounted (Some demoProject) 0) [MarkChanged; Advance 2000])
            SaveNow).
  rewrite (proj1 (in_flight_blocks_saves demoOptions
                    (run demoOptions (mounted (Some demoProject) 0) [MarkChanged; Advance 2000])
                    SaveNow eq_refl ltac:(intros ok; discriminate))).
  reflexivity.
Defined.

Lemma clearTimeout_length (id : positive) (l : list (positive * N)) :
  (length (clearTimeout id l) <= length l)%nat.
Proof.
  unfold clearTimeout. induction l as [|t l IH]; simpl; [lia|].
  destruct (negb (Pos.eqb (fst t) id)); simpl; lia.
Qed.

Lemma runTimers_length (fuel : nat) (limit : N) : forall s,
  (length (pending (runTimers fuel limit s)) <= length (pending s))%nat.
Proof.
  induction fuel as [|k IH]; intros s; simpl; [lia|].
  destruct (earliest limit (pending s)) as [[id due]|]; [|lia].
  specialize (IH (fire id due s)). unfold fire in IH.
  match type of IH with
  | context [save ?st] => destruct (save_keeps_timers st) as [Hp _]
  end.
  rewrite Hp in IH. simpl in IH.
  pose proof (clearTimeout_length id (pending s)). unfold fire. lia.
Qed.

Lemma hookStep_timers (o : Options) (h : Hook) (e : hookEvent) :
  timersInv (inner h) /\ (length (pending (inner h)) <= 1)%nat ->
  timersInv (inner (hookStep o h e))
  /\ (length (pending (inner (hookStep o h e))) <= 1)%nat.
Proof.
  intros [Hinv Hlen]. destruct e as [e|].
  - simpl. split; [apply timersInv_step, Hinv|].
    destruct e as [| |ok|dt]; simpl.
    + destruct (enabled o) eqn:He.
      * rewrite (markChanged_single o _ He Hinv). simpl. lia.
      * unfold markChanged. rewrite He. exact Hlen.
    + unfold saveNow.
      match goal with
      | |- context [save ?st] => destruct (save_keeps_timers st) as [Hp _]
      end.
      rewrite Hp. destruct (timerRef (inner h)) as [id|] eqn:Hid; [|exact Hlen].
      simpl. rewrite clearTimeout_own; [simpl; lia|].
      intros t Ht. rewrite <- (Hinv t Ht), Hid. reflexivity.
    + unfold saveSettled. destruct ok; exact Hlen.
    + unfold advance. simpl.
      pose proof (runTimers_length (length (pending (inner h)))
                    (clock (inner h) + dt) (inner h)) as Hle.
      lia.
  - cbn [hookStep]. unfold commit. destruct (Bool.eqb _ _); [tauto|]. cbn [inner].
    pose proof (cleanup_own (seenUnsaved h) _ Hinv) as Hc.
    split; [intros t Ht; rewrite Hc in Ht; destruct Ht | rewrite Hc; simpl; lia].
Qed.

(** X22: however marks, manual saves, settled saves, commits and the
    passing of time follow one another after the hook is mounted, at most
    one timeout of the hook is pending, and it is the one the timer
    reference holds. *)
Theorem at_most_one_timer (o : Options) (p : option Project) (t : N)
    (es : list hookEvent) :
  let h := hookRun o (hookMounted p t) es in
  (length (pending (inner h)) <= 1)%nat
  /\ forall id due, In (id, due) (pending (inner h)) -> timerRef (inner h) = Some id.
Proof.
  intros h.
  assert (H : timersInv (inner h) /\ (length (pending (inner h)) <= 1)%nat).
  { subst h. unfold hookRun.
    assert (Hstart : timersInv (inner (hookMounted p t))
                     /\ (length (pending (inner (hookMounted p t))) <= 1)%nat).
    { split; [intros x [] | simpl; lia]. }
    revert Hstart. generalize (hookMounted p t). 
    induction es as [|e es IH]; intros h0 H0; [exact H0|].
    simpl. apply IH, hookStep_timers, H0. }
  destruct H as [Hinv Hlen]. split; [exact Hlen|].
  intros id due Hin. exact (Hinv _ Hin).
Qed.

(** X23: a save that fails sets the status to error and keeps the unsaved
    mark; nothing saves again on its own, however much time passes. *)
Theorem failed_save_not_retried (o : Options) (h : Hook) (p : Project) (d : N) :
  enabled o = true ->
  timersInv (inner h) ->
  hasUnsavedChanges (inner h) = true ->
  seenUnsaved h = true ->
  projectRef (inner h) = Some p ->
  isSavingRef (inner h) = false ->
  let h' := hookRun o h [Event MarkChanged; Commit; Event (Advance (delay o));
                         Event (Settled false); Commit; Event (Advance d)] in
  saveCalls (inner h') = (saveCalls (inner h) ++ [(clock (inner h) + delay o, p)])%list
  /\ saveStatus (inner h') = error
  /\ hasUnsavedChanges (inner h') = true
  /\ isSavingRef (inner h') = false.
Proof.
  intros He Hinv Hu Hseen Hp Hfly h'. subst h'.
  assert (E1 : hookRun o h [Event MarkChanged; Commit]
               = mkHook (mkState unsaved true (Some (nextTimer (inner h))) (Some p) false
                           (clock (inner h))
                           [(nextTimer (inner h), clock (inner h) + delay o)]
                           (Pos.succ (nextTimer (inner h))) (saveCalls (inner h))) true).
  { unfold hookRun. cbn [fold_left hookStep step].
    rewrite (markChanged_single o _ He Hinv), Hseen, Hp, Hfly. reflexivity. }
  assert (E2 : forall st, pending st = [(nextTimer (inner h), clock (inner h) + delay o)] ->
               clock st = clock (inner h) -> projectRef st = Some p ->
               isSavingRef st = false -> hasUnsavedChanges st = true ->
               hookRun o (mkHook st true)
                 [Event (Advance (delay o)); Event (Settled false); Commit]
               = mkHook (mkState error true (timerRef st) (Some p) false
                           (clock (inner h) + delay o) [] (nextTimer st)
                           (saveCalls st ++ [(clock (inner h) + delay o, p)])%list) true).
  { intros st Hpend Hclock Hproj Hsave Hun. unfold hookRun.
    cbn [fold_left hookStep step inner seenUnsaved].
    rewrite (advance_fire_saves (delay o) st _ _ p Hpend) by (rewrite ?Hclock; first [lia | assumption]).
    rewrite Hun, Hclock. reflexivity. }
  change (hookRun o h [Event MarkChanged; Commit; Event (Advance (delay o));
                       Event (Settled false); Commit; Event (Advance d)])
    with (hookStep o (hookRun o (hookRun o h [Event MarkChanged; Commit])
                        [Event (Advance (delay o)); Event (Settled false); Commit])
            (Event (Advance d))).
  rewrite E1, E2 by reflexivity.
  cbn [hookStep step inner]. rewrite advance_nothing_pending by reflexivity.
  cbn. tauto.
Qed.

Lemma failed_save_not_retried_witness :
  timersInv (inner (mkHook (mkState unsaved true None (Some demoProject) false 0 []
                              1%positive []) true))
  /\ saveCalls (inner (hookRun demoOptions
                         (mkHook (mkState unsaved true None (Some demoProject) false 0 []
                                    1%positive []) true)
                         [Event MarkChanged; Commit; Event (Advance 2000);
                          Event (Settled false); Commit; Event (Advance 600000)]))
     = [(2000, demoProject)].
Proof.
  assert (Hinv : timersInv (inner (mkHook (mkState unsaved true None (Some demoProject)
                                             false 0 [] 1%positive []) true)))
    by (intros t []).
  split; [exact Hinv|].
  exact (proj1 (failed_save_not_retried demoOptions _ demoProject 600000 eq_refl Hinv
                  eq_refl eq_refl eq_refl eq_refl)).
Defined.

End HookFacts.

(** ** The recent-projects list and its handlers, continued *)

Section RecentMore.
Import LocalStorage Recent RecentHandlers.
Local Open Scope list_scope.

Lemma paths_bumped (p : string) (l : list RecentEntry) :
  NoDup (paths l) -> p ∈ paths l ->
  p :: paths (filter (fun r => path r <> p) l) ≡ₚ paths l.
Proof.
  induction l as [|r l IH]; intros Hnd Hin; [inversion Hin|].
  unfold paths in *. simpl in *. apply NoDup_cons in Hnd as [Hr Hnd].
  destruct (decide (path r = p)) as [Heq|Hne].
  - rewrite filter_cons. case_decide; [congruence|]. subst p.
    rewrite (filter_keeps_all _ l Hr). reflexivity.
  - rewrite filter_cons. case_decide; [|congruence]. simpl.
    rewrite Permutation_swap. constructor. apply IH; [assumption|].
    apply elem_of_cons in Hin as [?|?]; congruence.
Qed.

(** X24: opening a project that is already in a list of at most ten
    distinct paths moves it to the front and loses nothing: the other
    entries follow unchanged and in their order, and the paths of the list
    are the same as before. *)
Theorem addRecent_bumps_existing (p n : string) (now : N) (l : list RecentEntry) :
  NoDup (paths l) -> length l <= 10 -> p ∈ paths l ->
  addRecent p n now l = mkRecent p n now :: filter (fun r => path r <> p) l
  /\ paths (addRecent p n now l) ≡ₚ paths l
  /\ length (addRecent p n now l) = length l.
Proof.
  intros Hnd Hlen Hin.
  pose proof (filter_drops_one p l Hnd Hin) as Hdrop.
  assert (Heq : addRecent p n now l = mkRecent p n now :: filter (fun r => path r <> p) l).
  { rewrite addRecent_unfold. f_equal. apply take_ge. lia. }
  rewrite Heq. split; [reflexivity|]. split.
  - unfold paths at 1. simpl. apply paths_bumped; assumption.
  - simpl. exact Hdrop.
Qed.

Lemma addRecent_bumps_existing_witness :
  addRecent "/p/3" "again" 200 recentDemo
  = mkRecent "/p/3" "again" 200 :: filter (fun r => path r <> "/p/3") recentDemo
  /\ length (addRecent "/p/3" "again" 200 recentDemo) = 10.
Proof.
  assert (Hnd : NoDup (paths recentDemo)).
  { apply NoDup_ListNoDup. vm_compute.
    repeat (constructor; [intros Hin; simpl in Hin; intuition discriminate|]).
    constructor. }
  assert (Hin : "/p/3" ∈ paths recentDemo).
  { apply list_elem_of_In. vm_compute. do 3 right. left. reflexivity. }
  destruct (addRecent_bumps_existing "/p/3" "again" 200 recentDemo Hnd
              ltac:(simpl; lia) Hin) as (H1 & _ & H3).
  split; [exact H1 | exact H3].
Defined.

(** X25: opening a project whose path is not in a full list of ten drops
    exactly the last entry: the new entry comes first and the first nine
    entries follow unchanged. *)
Theorem addRecent_evicts_last (p n : string) (now : N) (l : list RecentEntry) :
  p ∉ paths l -> length l = 10 ->
  exists front oldest,
    l = front ++ [oldest]
    /\ addRecent p n now l = mkRecent p n now :: front.
Proof.
  intros Hp Hlen. rewrite addRecent_unfold, (filter_keeps_all p l Hp).
  destruct (drop 9 l) as [|oldest rest] eqn:Hdrop.
  - apply (f_equal length) in Hdrop. rewrite length_drop in Hdrop. simpl in Hdrop. lia.
  - assert (Hrest : rest = []).
    { apply (f_equal length) in Hdrop. rewrite length_drop in Hdrop. simpl in Hdrop.
      destruct rest; [reflexivity | simpl in Hdrop; lia]. }
    subst rest. exists (take 9 l), oldest. split; [|reflexivity].
    rewrite <- Hdrop. symmetry. apply take_drop.
Qed.

Lemma addRecent_evicts_last_witness :
  exists front oldest,
    recentDemo = front ++ [oldest]
    /\ addRecent "/p/new" "New" 300 recentDemo = mkRecent "/p/new" "New" 300 :: front.
Proof.
  apply addRecent_evicts_last; [|reflexivity].
  intros Hin. apply list_elem_of_In in Hin. vm_compute in Hin.
  intuition discriminate.
Defined.

Section HandlersMore.
Context `{J : JSON (list RecentEntry)}.

(** X26: an addition that the disk accepts is what the next [recent:get]
    returns: the handler answers success and the list read back is the old
    list with the new entry moved or put in front. *)
Theorem recentAdd_then_recentGet (p n : string) (now : N) (d : Disk)
    (l : list RecentEntry) :
  readOnly d = false ->
  holdsRecent d l ->
  JSON_parse (JSON_stringify (addRecent p n now l)) = Some (addRecent p n now l) ->
  snd (recentAdd p n now d) = success
  /\ recentGet (fst (recentAdd p n now d)) = addRecent p n now l
  /\ holdsRecent (fst (recentAdd p n now d)) (addRecent p n now l).
Proof.
  intros Hw Hd Hround.
  rewrite (recentAdd_writes p n now d l Hw Hd).
  unfold recentGet, holdsRecent. simpl. rewrite Hround. tauto.
Qed.

Lemma addSeries_corrupt (ops : list (string * string * N)) (d : Disk) (content : string) :
  recentFile d = Some content -> JSON_parse content = None ->
  addSeries ops d = d.
Proof.
  intros Hf Hp. unfold addSeries. induction ops as [|op ops IH]; [reflexivity|].
  simpl. rewrite (recentAdd_unparsable _ _ _ d content Hf Hp). exact IH.
Qed.

(** X27: a file that does not parse is never repaired by [recent:add]:
    every call fails and leaves the file as it is, whatever is added and
    however often; after [recent:clear] an addition succeeds again and the
    list holds just the new entry. *)
Theorem corrupt_file_needs_clear (ops : list (string * string * N)) (d : Disk)
    (content p n : string) (now : N) :
  recentFile d = Some content ->
  JSON_parse content = None ->
  readOnly d = false ->
  JSON_parse "[]" = Some [] ->
  JSON_parse (JSON_stringify [mkRecent p n now]) = Some [mkRecent p n now] ->
  addSeries ops d = d
  /\ (exists e, snd (recentAdd p n now (addSeries ops d)) = failure e)
  /\ snd (recentAdd p n now (fst (recentClear d))) = success
  /\ recentGet (fst (recentAdd p n now (fst (recentClear d)))) = [mkRecent p n now].
Proof.
  intros Hf Hp Hw Hempty Hround.
  rewrite (addSeries_corrupt ops d content Hf Hp).
  split; [reflexivity|]. split.
  - unfold recentAdd. rewrite Hf, Hp. eexists. reflexivity.
  - unfold recentClear. rewrite Hw. cbn [fst snd].
    unfold recentAdd. cbn [recentFile readOnly]. rewrite Hempty.
    change (addRecent p n now []) with [mkRecent p n now]. cbn [fst snd].
    unfold recentGet. cbn [recentFile]. rewrite Hround. tauto.
Qed.

End HandlersMore.

Lemma recentAdd_then_recentGet_witness :
  recentGet (H := recentJSON)
    (fst (recentAdd (H := recentJSON) "/p/3" "again" 200
            (mkDisk (Some (writeRecent recentDemo)) false)))
  = addRecent "/p/3" "again" 200 recentDemo.
Proof.
  refine (proj1 (proj2 (recentAdd_then_recentGet (J := recentJSON) "/p/3" "again" 200
                          (mkDisk (Some (writeRecent recentDemo)) false) recentDemo
                          eq_refl _ _))).
  - vm_compute. reflexivity.
  - vm_compute. reflexivity.
Defined.

Lemma corrupt_file_needs_clear_witness :
  addSeries (H := recentJSON) [("/p/a", "A", 7%N); ("/p/b", "B", 8%N)] corruptDisk
  = corruptDisk
  /\ recentGet (H := recentJSON)
       (fst (recentAdd (H := recentJSON) "/p/a" "A" 7
               (fst (recentClear corruptDisk))))
     = [mkRecent "/p/a" "A" 7].
Proof.
  destruct (corrupt_file_needs_clear (J := recentJSON)
              [("/p/a", "A", 7%N); ("/p/b", "B", 8%N)] corruptDisk "{oops" "/p/a" "A" 7
              eq_refl eq_refl eq_refl eq_refl eq_refl) as (H1 & _ & _ & H4).
  split; [exact H1 | exact H4].
Defined.

End RecentMore.

(** ** The provider: a store that cannot be read, and renaming *)

Section ProviderEdges.
Import LocalStorage Provider.
Local Open Scope list_scope.
Context `{JP : JSON (list Project)} `{JL : JSON (list CustomLayout)}
        `{JF : JSON (list CustomFont)} `{JS : JSON FontSettings}
        `{SU : StorageUtils} `{WS : WebStorage}.

(** X28: when the stored projects cannot be read (the store is out of
    reach, the key is absent or its text does not parse), no project is
    found under any identifier, the list of metadata is empty, and
    renaming or duplicating rejects with the not-found error without
    writing anything. *)
Theorem unreadable_store_has_no_project
    (b : Backend) (id newName now created modified : string) (nowMs : N) :
  unreadable (list Project) PROJECTS b ->
  getProject id b = (b, Ok None)
  /\ getProjectMetadata b = (b, Ok [])
  /\ renameProject id newName now b = (b, Throw (Error "Project not found"))
  /\ duplicateProject id nowMs created modified now b
     = (b, Throw (Error "Project not found")).
Proof.
  intros Hun.
  assert (Hread : getAllProjects b = (b, Ok [])) by (apply readOr_default, Hun).
  assert (Hget : getProject id b = (b, Ok None)).
  { unfold getProject, bind. rewrite Hread. reflexivity. }
  split; [exact Hget|]. split; [|split].
  - unfold getProjectMetadata, bind. rewrite Hread. reflexivity.
  - unfold renameProject, bind. rewrite Hget. reflexivity.
  - unfold duplicateProject, bind. rewrite Hget. reflexivity.
Qed.

(** X29: renaming a stored project changes its name and its time of
    modification and nothing else: afterwards [getProject] returns the
    project with the new name, the time of the save, and the identifier,
    carousels, time of creation and description it had. *)
Theorem renameProject_then_getProject
    (b b' : Backend) (id newName now : string) (projects : list Project) (p : Project) :
  getAllProjects b = (b, Ok projects) ->
  List.find (sameProject id) projects = Some p ->
  let renamed := set_modifiedAt now (set_name newName p) in
  let rewritten :=
    upsert (fun q => String.eqb (project_id q) (project_id p)) renamed projects in
  (estimateDataSize rewritten <= total b - used b)%N ->
  safeSetItem PROJECTS (JSON_stringify rewritten) b = (b', Ok tt) ->
  items b' !! PROJECTS = Some (JSON_stringify rewritten) ->
  blocked b' = false ->
  JSON_stringify rewritten <> "" ->
  JSON_parse (JSON_stringify rewritten) = Some rewritten ->
  renameProject id newName now b = (b', Ok tt)
  /\ getProject id b' = (b', Ok (Some renamed))
  /\ project_name renamed = newName
  /\ project_modifiedAt renamed = now
  /\ project_id renamed = id
  /\ carousels renamed = carousels p
  /\ project_createdAt renamed = project_createdAt p
  /\ project_description renamed = project_description p.
Proof.
  intros Hget Hfind renamed rewritten Hfit Hset Hstored Hopen Hne Hrt.
  assert (Hid : project_id p = id).
  { apply find_some in Hfind as [_ Hsame]. apply String.eqb_eq, Hsame. }
  split; [|split].
  - unfold renameProject, bind, getProject, bind. rewrite Hget. unfold ret.
    rewrite Hfind.
    apply (saveProject_enough_space b (set_name newName p) now projects Hget Hfit b' Hset).
  - unfold getProject, bind, getAllProjects.
    rewrite (readOr_stored PROJECTS _ [] rewritten b' Hopen Hstored Hne Hrt).
    unfold ret. do 2 f_equal. rewrite <- Hid.
    apply (find_upsert project_id renamed projects).
  - repeat split. exact Hid.
Qed.

End ProviderEdges.

Lemma unreadable_store_has_no_project_witness :
  unreadable (H := projectsJSON) (list LocalStorage.Project) LocalStorage.PROJECTS brokenStore
  /\ @Provider.renameProject projectsJSON plainUtils "project-1" "New name"
       "2024-01-01T00:00:00.000Z" brokenStore
     = (brokenStore, LocalStorage.Throw (LocalStorage.Error "Project not found")).
Proof.
  assert (Hun : unreadable (H := projectsJSON) (list LocalStorage.Project)
                  LocalStorage.PROJECTS brokenStore).
  { right. right. eexists. split; reflexivity. }
  split; [exact Hun|].
  exact (proj1 (proj2 (proj2 (unreadable_store_has_no_project (JP := projectsJSON)
            (SU := plainUtils) brokenStore "project-1" "New name"
            "2024-01-01T00:00:00.000Z" "2024-01-01T00:00:00.000Z"
            "2024-01-01T00:00:00.000Z" 1704067200000 Hun)))).
Defined.

Lemma renameProject_then_getProject_witness :
  @Provider.renameProject renameJSON plainUtils "project-1700000000001" "Renamed"
     "2024-03-03T00:00:00.000Z" (storeWith [otherProject])
  = (storeWith [renamedOther], LocalStorage.Ok tt)
  /\ @Provider.getProject renameJSON "project-1700000000001" (storeWith [renamedOther])
     = (storeWith [renamedOther], LocalStorage.Ok (Some renamedOther)).
Proof.
  destruct (renameProject_then_getProject (JP := renameJSON) (SU := plainUtils)
              (storeWith [otherProject]) (storeWith [renamedOther])
              "project-1700000000001" "Renamed" "2024-03-03T00:00:00.000Z"
              [otherProject] otherProject eq_refl eq_refl
              ltac:(vm_compute; discriminate) eq_refl eq_refl eq_refl
              ltac:(discriminate) eq_refl)
    as (Hrename & Hget & _).
  split; [exact Hrename | exact Hget].
Defined.
